(** * Open-Meteo weather ETL pipeline: extract, transform, load

    A shallow embedding of [etl/extract.py], [etl/transform.py] and
    [etl/load.py], followed by the properties of the three stages.

    Modelling conventions
    - Python strings are [string] (sequences of bytes); [str.lower] and
      [str.replace] act on the ASCII letters and the space character.
    - A CSV file is the list of records the [csv] module reads from it or
      writes to it, each record a list of cells; quoting and line endings
      are those of the [csv] module and are not modelled.
    - A clean directory is a finite map from paths to CSV files; a path
      that is not in the map does not exist.
    - Exceptions are values of [exception]; a call either returns or raises
      ([outcome]).  State (files, audit log, bucket) is passed explicitly.
    - [datetime.now()], the HTTP client, the YAML file and the S3 client are
      the environment: they are fields of the [*_env] records.
    - [print] calls have no effect on the state and are left out. *)

From stdpp Require Import gmap strings list pretty.
From Stdlib Require Import ZArith Ascii.


(* ===================================================================== *)
(** ** Exceptions, outcomes and the audit log                             *)
(* ===================================================================== *)

(** The exception classes the three stages raise or handle.  A constructor
    stands for the class itself, not for its subclasses: [OSError] is an
    [OSError] that is not a [FileNotFoundError], [BotoCoreError] one that is
    not a [NoCredentialsError]. *)
Inductive exception : Type :=
  | AttributeError (msg : string)
  | IndexError (msg : string)
  | ConnectionError (msg : string)
  | OSError (msg : string)
  | ValueError (msg : string)
  | RuntimeError (msg : string)
  | FileNotFoundError (msg : string)
  | NoCredentialsError (msg : string)
  | BotoCoreError (msg : string)
  | ClientError (msg : string)
  | S3UploadFailedError (msg : string).

(** [str(e)] *)
Definition str (e : exception) : string :=
  match e with
  | AttributeError m | IndexError m | ConnectionError m | OSError m
  | ValueError m | RuntimeError m | FileNotFoundError m
  | NoCredentialsError m | BotoCoreError m | ClientError m
  | S3UploadFailedError m => m
  end.

Inductive outcome (A : Type) : Type :=
  | Returned (a : A)
  | Raised (e : exception).
Arguments Returned {A} a.
Arguments Raised {A} e.

Definition is_raised {A} (o : outcome A) : bool :=
  match o with Raised _ => true | Returned _ => false end.

Inductive status := SUCCESS | FAILED.

#[global] Instance status_eq_dec : EqDecision status.
Proof. solve_decision. Defined.

(** One row of [logs/etl_error_log.csv]; the wall-clock column is left out. *)
Record log_row := LogRow {
  log_raw_file : string;
  log_clean_file : string;
  log_status : status;
  log_error_message : string
}.

(** [log_etl_status(raw_file, clean_file, status, error_message)] appends one
    row to the audit log. *)
Definition log_etl_status (raw_file clean_file : string) (st : status)
    (error_message : string) (log : list log_row) : list log_row :=
  log ++ [LogRow raw_file clean_file st error_message].

(** Python truthiness of an optional string: [None] and [""] are falsy. *)
Definition truthy (v : option string) : bool :=
  match v with
  | Some s => negb (bool_decide (s = ""))
  | None => false
  end.

(* ===================================================================== *)
(** ** String helpers                                                     *)
(* ===================================================================== *)

Fixpoint str_map (f : ascii → ascii) (s : string) : string :=
  match s with
  | EmptyString => EmptyString
  | String c s' => String (f c) (str_map f s')
  end.

Definition lower_ascii (c : ascii) : ascii :=
  let n := nat_of_ascii c in
  if (65 <=? n)%nat && (n <=? 90)%nat then ascii_of_nat (n + 32) else c.

(** [s.lower()] *)
Definition lower (s : string) : string := str_map lower_ascii s.

(** [s.replace(a, b)] for one-character [a] and [b] *)
Definition replace (a b : ascii) (s : string) : string :=
  str_map (λ c, if Ascii.eqb c a then b else c) s.

(** [s.endswith(suffix)] *)
Definition endswith (s suffix : string) : bool :=
  String.prefix (String.rev suffix) (String.rev s).

(** [os.path.join(a, b)] for a relative [b] *)
Definition path_join (a b : string) : string :=
  if bool_decide (a = "") then b
  else if endswith a "/" then a +:+ b
  else a +:+ "/" +:+ b.

(** [os.path.basename(p)]: what follows the last slash *)
Fixpoint basename_aux (s acc : string) : string :=
  match s with
  | EmptyString => acc
  | String c s' =>
      if Ascii.eqb c "/" then basename_aux s' EmptyString
      else basename_aux s' (acc +:+ String c EmptyString)
  end.
Definition basename (p : string) : string := basename_aux p EmptyString.

(* ===================================================================== *)
(** ** The snapshot document                                              *)
(* ===================================================================== *)

(** One element of ["current_hourly_forecast_PKT"].  [time_PKT] is [None]
    when the key is absent or not a string; the measured fields are the text
    that ends up in the CSV cell. *)
Record raw_point := RawPoint {
  time_PKT : option string;
  temperature_c : string;
  humidity_percent : string;
  conditions : string;
  wind_speed_kmh : string
}.

(** One element of the snapshot list, shaped as [extract_data] writes it.
    [city] is [None] when the key is absent or null; an absent point list
    reads as the empty list ([city_forecast.get(..., [])]). *)
Record city_forecast := CityForecast {
  city : option string;
  current_hourly_forecast_PKT : list raw_point
}.

Abbreviation snapshot := (list city_forecast).

(** A CSV file: its records in file order. *)
Abbreviation csv := (list (list string)).

(* ===================================================================== *)
(** ** etl/extract.py                                                     *)
(* ===================================================================== *)

Module Extract.

Definition BASE_DIR := "/mnt/d/projects/open-meteo_weather_etl_pipeline".
Definition DATA_DIR := path_join BASE_DIR "data".
Definition RAW_DIR := path_join DATA_DIR "raw".

Definition PUNJAB_CITIES : list (string * (string * string)) :=
  [ ("Lahore", ("31.5497", "74.3436"));
    ("Faisalabad", ("31.4180", "73.0791"));
    ("Rawalpindi", ("33.6844", "73.0479"));
    ("Multan", ("30.1989", "71.4687"));
    ("Sialkot", ("32.5000", "74.5333"));
    ("Gujranwala", ("32.1877", "74.1945"));
    ("Bahawalpur", ("29.3957", "71.6833"));
    ("Rahim Yar Khan", ("28.4202", "70.2952"));
    ("Dera Ghazi Khan", ("30.0459", "70.6403"));
    ("Sahiwal", ("30.6612", "73.1086"));
    ("Okara", ("30.8081", "73.4458"));
    ("Kasur", ("31.1164", "74.4500"));
    ("Sheikhupura", ("31.7131", "73.9783"));
    ("Jhang", ("31.2780", "72.3118"));
    ("Gujrat", ("32.5731", "74.0780")) ].

(** [interpret_weather_code(code)], on an integer code ([int(code)] is the
    identity there). *)
Definition interpret_weather_code (code : Z) : string :=
  if (code =? 0)%Z then "Clear sky"
  else if (code =? 1)%Z then "Mostly clear"
  else if (code =? 2)%Z then "Partly cloudy"
  else if (code =? 3)%Z then "Overcast"
  else if (code =? 45)%Z || (code =? 48)%Z then "Fog or Rime fog"
  else if (51 <=? code)%Z && (code <=? 55)%Z then "Drizzle (Light to Dense)"
  else if (56 <=? code)%Z && (code <=? 57)%Z then "Freezing Drizzle"
  else if (61 <=? code)%Z && (code <=? 65)%Z then "Rain (Slight to Heavy)"
  else if (66 <=? code)%Z && (code <=? 67)%Z then "Freezing Rain"
  else if (80 <=? code)%Z && (code <=? 82)%Z then "Rain showers (Slight to Violent)"
  else if (85 <=? code)%Z && (code <=? 86)%Z then "Snow showers (Slight to Heavy)"
  else if (code =? 95)%Z then "Thunderstorm (Slight or Moderate)"
  else if (96 <=? code)%Z && (code <=? 99)%Z then "Thunderstorm with hail"
  else "Conditions Varies (WMO Code " +:+ pretty code +:+ ")".

(** The ["hourly"] object of one response: five parallel arrays.  A key
    that is absent reads as the empty list ([hourly.get(k, [])]). *)
Record hourly := Hourly {
  time : list string;
  temperature_2m : list string;
  relative_humidity_2m : list string;
  weather_code : list Z;
  wind_speed_10m : list string
}.

(** The environment of one fetch cycle. *)
Record extract_env := ExtractEnv {
  (** [requests.get], [raise_for_status] and [resp.json()] for a
      coordinate pair *)
  requests_get : string → string → outcome hourly;
  (** [datetime.now().strftime("%Y%m%d_%H%M%S")] *)
  now : string;
  (** what [open(raw_file_path, "w")] and [json.dump] raise, if anything *)
  json_dump : string → option exception
}.

(** The state the Fetcher works on. *)
Record extract_state := ExtractState {
  raw_files : gmap string snapshot;
  extract_log : list log_row
}.

(** The body of [for i in range(len(times))]: indexing a shorter array
    raises [IndexError]. *)
Definition decode_point (h : hourly) (i : nat) : outcome raw_point :=
  match time h !! i, temperature_2m h !! i, relative_humidity_2m h !! i,
        weather_code h !! i, wind_speed_10m h !! i with
  | Some t, Some temp, Some hum, Some code, Some wind =>
      Returned (RawPoint (Some t) temp hum (interpret_weather_code code) wind)
  | _, _, _, _, _ => Raised (IndexError "list index out of range")
  end.

Fixpoint decode_points (h : hourly) (idx : list nat) : outcome (list raw_point) :=
  match idx with
  | [] => Returned []
  | i :: idx' =>
      match decode_point h i with
      | Raised e => Raised e
      | Returned p =>
          match decode_points h idx' with
          | Raised e => Raised e
          | Returned ps => Returned (p :: ps)
          end
      end
  end.

(** The inner [try] block for one city. *)
Definition fetch_city (env : extract_env) (name lat lon : string)
    : outcome city_forecast :=
  match requests_get env lat lon with
  | Raised e => Raised e
  | Returned h =>
      match decode_points h (seq 0 (length (time h))) with
      | Raised e => Raised e
      | Returned ps => Returned (CityForecast (Some name) ps)
      end
  end.

(** The loop over [PUNJAB_CITIES.items()]: a city whose [try] block raises
    is printed and skipped. *)
Fixpoint fetch_all (env : extract_env) (cities : list (string * (string * string)))
    : snapshot :=
  match cities with
  | [] => []
  | (name, (lat, lon)) :: rest =>
      match fetch_city env name lat lon with
      | Returned cd => cd :: fetch_all env rest
      | Raised _ => fetch_all env rest
      end
  end.

Definition raw_file_path_of (env : extract_env) : string :=
  path_join RAW_DIR ("punjab_weather_raw_" +:+ now env +:+ ".json").

(** [extract_data()] *)
Definition extract_data (env : extract_env) (st : extract_state)
    : extract_state * outcome string :=
  let all_cities_data := fetch_all env PUNJAB_CITIES in
  let raw_file_path := raw_file_path_of env in
  match json_dump env raw_file_path with
  | Some e =>
      (ExtractState (raw_files st)
         (log_etl_status "" "" FAILED (str e) (extract_log st)),
       Raised e)
  | None =>
      (ExtractState (<[raw_file_path := all_cities_data]> (raw_files st))
         (log_etl_status raw_file_path "" SUCCESS "" (extract_log st)),
       Returned raw_file_path)
  end.

End Extract.

(* ===================================================================== *)
(** ** etl/transform.py                                                   *)
(* ===================================================================== *)

Module Transform.

Definition BASE_DIR := "/mnt/d/projects/open-meteo_weather_etl_pipeline".
Definition DATA_DIR := path_join BASE_DIR "data".
Definition CLEAN_DIR := path_join DATA_DIR "clean".

Definition DEDUP_FIELDS : list string := ["date"; "time_ampm"].

(** *** [datetime.strptime(s, "%Y-%m-%dT%H:%M")]

    The format compiles to the regular expression
    [(\d\d\d\d)-(1[0-2]|0[1-9]|[1-9])-(3[01]|[12]\d|0[1-9]|[1-9]| [1-9])T(2[0-3]|[0-1]\d|\d):([0-5]\d|\d)],
    matched case-insensitively against the whole string; the fields are then
    checked by the [datetime] constructor.  Digits are the ASCII digits. *)

Record datetime := DateTime {
  year : nat; month : nat; day : nat; hour : nat; minute : nat
}.

Definition digit_of (c : ascii) : option nat :=
  let n := nat_of_ascii c in
  if (48 <=? n)%nat && (n <=? 57)%nat then Some (n - 48) else None.

Fixpoint number_of (s : string) (acc : nat) : option nat :=
  match s with
  | EmptyString => Some acc
  | String c s' =>
      match digit_of c with
      | Some d => number_of s' (10 * acc + d)
      | None => None
      end
  end.

(** A non-empty run of digits of length at most [width], read in base 10. *)
Definition digits_upto (width : nat) (s : string) : option nat :=
  if (1 <=? String.length s)%nat && (String.length s <=? width)%nat
  then number_of s 0 else None.

(** Cuts [s] at the first character satisfying [sep]. *)
Fixpoint split_at (sep : ascii → bool) (s : string) : option (string * string) :=
  match s with
  | EmptyString => None
  | String c s' =>
      if sep c then Some (EmptyString, s')
      else match split_at sep s' with
           | Some (a, b) => Some (String c a, b)
           | None => None
           end
  end.

Definition within (lo hi : nat) (n : nat) : option nat :=
  if (lo <=? n)%nat && (n <=? hi)%nat then Some n else None.

(** [%Y]: exactly four digits *)
Definition field_Y (s : string) : option nat :=
  if (String.length s =? 4)%nat then number_of s 0 else None.
(** [%m]: [1[0-2]|0[1-9]|[1-9]] *)
Definition field_m (s : string) : option nat :=
  digits_upto 2 s ≫= within 1 12.
(** [%d]: [3[01]|[12]\d|0[1-9]|[1-9]| [1-9]] *)
Definition field_d (s : string) : option nat :=
  match s with
  | String " "%char (String c EmptyString) => digit_of c ≫= within 1 9
  | _ => digits_upto 2 s ≫= within 1 31
  end.
(** [%H]: [2[0-3]|[0-1]\d|\d] *)
Definition field_H (s : string) : option nat :=
  digits_upto 2 s ≫= within 0 23.
(** [%M]: [[0-5]\d|\d] *)
Definition field_M (s : string) : option nat :=
  digits_upto 2 s ≫= within 0 59.

Definition is_leap (y : nat) : bool :=
  ((y mod 4 =? 0)%nat && negb (y mod 100 =? 0)%nat) || (y mod 400 =? 0)%nat.

Definition days_in_month (y m : nat) : nat :=
  match m with
  | 2 => if is_leap y then 29 else 28
  | 4 | 6 | 9 | 11 => 30
  | _ => 31
  end.

Definition is_char (a : ascii) (c : ascii) : bool := Ascii.eqb c a.

Definition strptime (s : string) : option datetime :=
  '(sY, r1) ← split_at (is_char "-") s;
  '(sm, r2) ← split_at (is_char "-") r1;
  '(sd, r3) ← split_at (λ c, is_char "T" c || is_char "t" c) r2;
  '(sH, sM) ← split_at (is_char ":") r3;
  y ← field_Y sY;
  m ← field_m sm;
  d ← field_d sd;
  H ← field_H sH;
  M ← field_M sM;
  if (1 <=? y)%nat && (d <=? days_in_month y m)%nat
  then Some (DateTime y m d H M) else None.

(** Zero-padded decimal, as [%m], [%d], [%I], [%M] and [%Y] print it. *)
Fixpoint zeros (n : nat) : string :=
  match n with
  | O => EmptyString
  | S n' => String "0" (zeros n')
  end.
Definition pad (width n : nat) : string :=
  zeros (width - String.length (pretty n)) +:+ pretty n.

(** [dt.strftime("%Y-%m-%d")], the year printed on four digits *)
Definition strftime_date (dt : datetime) : string :=
  pad 4 (year dt) +:+ "-" +:+ pad 2 (month dt) +:+ "-" +:+ pad 2 (day dt).

(** [dt.strftime("%I:%M %p")] *)
Definition strftime_time (dt : datetime) : string :=
  let h12 := if (hour dt mod 12 =? 0)%nat then 12 else hour dt mod 12 in
  pad 2 h12 +:+ ":" +:+ pad 2 (minute dt) +:+ " "
    +:+ (if (hour dt <? 12)%nat then "AM" else "PM").

(** *** Reading the persisted key set *)

(** One row as [csv.DictReader] yields it: [dict(zip(fieldnames, row))],
    then every field name beyond the row's length is set to [None]. *)
Definition dict_of_row (fieldnames row : list string) : gmap string (option string) :=
  let d := foldl (λ d kv, <[kv.1 := Some kv.2]> d) ∅ (zip fieldnames row) in
  foldl (λ d k, <[k := None]> d) d (drop (length row) fieldnames).

(** [csv.DictReader(f)]: the first record gives the field names, empty
    records are skipped. *)
Definition DictReader (f : csv) : list (gmap string (option string)) :=
  match f with
  | [] => []
  | fieldnames :: rest => dict_of_row fieldnames <$> filter (λ r, r ≠ []) rest
  end.

(** [row.get(k)] *)
Definition row_get (row : gmap string (option string)) (k : string) : option string :=
  row !! k ≫= id.

(** The loop body of [load_existing_keys]. *)
Definition add_key (keys : gset (list (option string)))
    (row : gmap string (option string)) : gset (list (option string)) :=
  let key := row_get row <$> DEDUP_FIELDS in
  if forallb truthy key then keys ∪ {[ key ]} else keys.

(** [load_existing_keys(csv_path)] *)
Definition load_existing_keys (files : gmap string csv) (csv_path : string)
    : gset (list (option string)) :=
  match files !! csv_path with
  | Some f => foldl add_key ∅ (DictReader f)
  | None => ∅
  end.

(** *** Appending *)

Definition headers : list string :=
  ["city"; "date"; "time_ampm"; "temperature_c"; "humidity_percent";
   "conditions"; "wind_speed_kmh"].

(** A queued row: the dict [transform_data] builds for one point. *)
Record clean_row := CleanRow {
  row_city : string;
  row_date : string;
  row_time_ampm : string;
  row_temperature_c : string;
  row_humidity_percent : string;
  row_conditions : string;
  row_wind_speed_kmh : string
}.

(** [csv.DictWriter(f, fieldnames=headers).writerow(row)] *)
Definition write_row (r : clean_row) : list string :=
  [row_city r; row_date r; row_time_ampm r; row_temperature_c r;
   row_humidity_percent r; row_conditions r; row_wind_speed_kmh r].

(** The environment of the Reconciler: what [open(csv_path, 'a')] raises,
    if anything. *)
Record transform_env := TransformEnv {
  open_append : string → option exception
}.

(** [append_rows(csv_path, rows, headers)] *)
Definition append_rows (env : transform_env) (csv_path : string)
    (rows : list clean_row) (hdr : list string) (files : gmap string csv)
    : gmap string csv * outcome unit :=
  match open_append env csv_path with
  | Some e => (files, Raised e)
  | None =>
      let old := match files !! csv_path with
                 | Some f => f
                 | None => [hdr]
                 end in
      (<[csv_path := old ++ (write_row <$> rows)]> files, Returned tt)
  end.

(** *** The per-city loop *)

(** The loop over a city's points: a point whose timestamp does not parse is
    skipped, a point whose key is in [existing] is skipped, any other point is
    queued. *)
Fixpoint new_rows (city : string) (existing : gset (list (option string)))
    (recs : list raw_point) : list clean_row :=
  match recs with
  | [] => []
  | rec :: rest =>
      match time_PKT rec ≫= strptime with
      | None => new_rows city existing rest
      | Some dt =>
          let date := strftime_date dt in
          let time_ampm := strftime_time dt in
          let key := [Some date; Some time_ampm] in
          if bool_decide (key ∈ existing) then new_rows city existing rest
          else CleanRow city date time_ampm (temperature_c rec)
                 (humidity_percent rec) (conditions rec) (wind_speed_kmh rec)
               :: new_rows city existing rest
      end
  end.

(** [os.path.join(clean_dir, f"{city.replace(' ', '_').lower()}_weather.csv")] *)
Definition csv_file_of (clean_dir city : string) : string :=
  path_join clean_dir (lower (replace " " "_" city) +:+ "_weather.csv").

(** One iteration of [for city_forecast in data]. *)
Definition reconcile_city (env : transform_env) (clean_dir : string)
    (cf : city_forecast) (files : gmap string csv)
    : gmap string csv * outcome unit :=
  match city cf with
  | None =>
      (files, Raised (AttributeError "'NoneType' object has no attribute 'replace'"))
  | Some c =>
      let csv_file := csv_file_of clean_dir c in
      let existing := load_existing_keys files csv_file in
      let rows := new_rows c existing (current_hourly_forecast_PKT cf) in
      match rows with
      | [] => (files, Returned tt)
      | _ :: _ => append_rows env csv_file rows headers files
      end
  end.

(** [for city_forecast in data]: the first exception leaves the loop. *)
Fixpoint reconcile_cities (env : transform_env) (clean_dir : string)
    (data : snapshot) (files : gmap string csv)
    : gmap string csv * outcome unit :=
  match data with
  | [] => (files, Returned tt)
  | cf :: rest =>
      match reconcile_city env clean_dir cf files with
      | (files', Returned _) => reconcile_cities env clean_dir rest files'
      | (files', Raised e) => (files', Raised e)
      end
  end.

(** The state the Reconciler works on: the raw snapshots it can read, the
    clean directory and the audit log. *)
Record transform_state := TransformState {
  snapshots : gmap string snapshot;
  clean_files : gmap string csv;
  transform_log : list log_row
}.

(** [open(raw_file)] and [json.load]: a snapshot that is not there cannot be
    read. *)
Definition read_snapshot (st : transform_state) (raw_file : string)
    : outcome snapshot :=
  match snapshots st !! raw_file with
  | Some data => Returned data
  | None => Raised (FileNotFoundError ("No such file or directory: " +:+ raw_file))
  end.

(** [transform_data(raw_file)] *)
Definition transform_data (env : transform_env) (raw_file : string)
    (st : transform_state) : transform_state * outcome string :=
  let clean_dir := CLEAN_DIR in
  match read_snapshot st raw_file with
  | Raised e =>
      (TransformState (snapshots st) (clean_files st)
         (log_etl_status raw_file "" FAILED (str e) (transform_log st)),
       Raised e)
  | Returned data =>
      match reconcile_cities env clean_dir data (clean_files st) with
      | (files', Raised e) =>
          (TransformState (snapshots st) files'
             (log_etl_status raw_file "" FAILED (str e) (transform_log st)),
           Raised e)
      | (files', Returned _) =>
          (TransformState (snapshots st) files'
             (log_etl_status raw_file clean_dir SUCCESS "" (transform_log st)),
           Returned clean_dir)
      end
  end.

(** A sequence of runs, one per snapshot reference; the scheduler starts
    each run whatever the previous one did. *)
Fixpoint run_all (env : transform_env) (raw_files : list string)
    (st : transform_state) : transform_state :=
  match raw_files with
  | [] => st
  | raw_file :: rest => run_all env rest (transform_data env raw_file st).1
  end.

End Transform.

(* ===================================================================== *)
(** ** etl/load.py                                                        *)
(* ===================================================================== *)

Module Load.

Record aws_section := AwsSection {
  region_name : option string;
  access_key_id : option string;
  secret_access_key : option string
}.

Record s3_section := S3Section {
  bucket_name : option string;
  clean_prefix : option string
}.

(** The parsed YAML document; a section that is absent reads as a section
    with no keys ([cfg.get("aws", {})]). *)
Record config := Config {
  aws : aws_section;
  s3 : s3_section
}.

(** What a path is on the local disk. *)
Inductive node :=
  | Missing
  | RegularFile
  | Directory (entries : list string).

(** What is at a configuration path: nothing, a file that is not valid
    YAML, or a document. *)
Inductive yaml_file :=
  | NoFile
  | BadYaml (msg : string)
  | Yaml (cfg : config).

(** The environment of the Publisher. *)
Record load_env := LoadEnv {
  (** the configuration file at a path *)
  config_at : string → yaml_file;
  (** [os.path.exists], [os.path.isdir], [os.listdir] *)
  stat : string → node;
  (** what [s3_client.upload_file(local_path, bucket, key)] raises, if
      anything *)
  upload_file : string → string → string → option exception;
  (** [datetime.now().strftime("%Y/%m/%d_%H%M%S")] *)
  upload_now : string
}.

Record s3_object := S3Object {
  obj_local_path : string;
  obj_bucket : string;
  obj_key : string
}.

(** The state the Publisher works on: the objects uploaded so far and the
    audit log. *)
Record load_state := LoadState {
  uploaded_objects : list s3_object;
  load_log : list log_row
}.

Definition BASE_DIR := "/mnt/d/projects/open-meteo_weather_etl_pipeline".
Definition CONFIG_PATH := path_join (path_join BASE_DIR "config") "aws_config.yaml".
(** [os.path.abspath(os.path.join(os.path.dirname(__file__), "..", "config", "aws_config.yaml"))] *)
Definition ALT_CONFIG_PATH := path_join (path_join BASE_DIR "config") "aws_config.yaml".

(** [_read_config(path)].  [CONFIG_PATH] and the fallback path are both built
    from the location of [load.py] and name the same file. *)
Definition _read_config (env : load_env) (path : string) : outcome config :=
  let chosen :=
    match config_at env path with
    | NoFile =>
        match config_at env ALT_CONFIG_PATH with
        | NoFile => None
        | _ => Some ALT_CONFIG_PATH
        end
    | _ => Some path
    end in
  match chosen with
  | None =>
      Raised (FileNotFoundError
                ("❌ Config file not found at " +:+ path +:+ " or " +:+ ALT_CONFIG_PATH))
  | Some p =>
      match config_at env p with
      | Yaml cfg => Returned cfg
      | BadYaml m => Raised (RuntimeError ("❌ Error reading YAML config: " +:+ m))
      | NoFile => Raised (FileNotFoundError p)
      end
  end.

(** [_make_s3_client(cfg)]: the client itself is the [upload_file] field of
    the environment. *)
Definition _make_s3_client (cfg : config) : outcome unit :=
  if forallb truthy [region_name (aws cfg); access_key_id (aws cfg);
                     secret_access_key (aws cfg)]
  then Returned tt
  else Raised (ValueError "❌ Incomplete AWS configuration in aws_config.yaml").

Definition exists_path (env : load_env) (p : string) : bool :=
  match stat env p with Missing => false | _ => true end.

(** [_upload_one_file(s3_client, bucket, prefix, local_path)] *)
Definition _upload_one_file (env : load_env) (bucket prefix local_path : string)
    (objs : list s3_object) : list s3_object * outcome string :=
  if negb (exists_path env local_path)
  then (objs, Raised (FileNotFoundError ("Clean file not found: " +:+ local_path)))
  else
    let key := prefix +:+ upload_now env +:+ "_" +:+ basename local_path in
    match upload_file env local_path bucket key with
    | Some e => (objs, Raised e)
    | None =>
        (objs ++ [S3Object local_path bucket key],
         Returned ("s3://" +:+ bucket +:+ "/" +:+ key))
    end.

(** The classes of [except (FileNotFoundError, NoCredentialsError,
    BotoCoreError, ClientError)]. *)
Definition caught (e : exception) : bool :=
  match e with
  | FileNotFoundError _ | NoCredentialsError _ | BotoCoreError _
  | ClientError _ => true
  | _ => false
  end.

(** [for p in paths] *)
Fixpoint upload_loop (env : load_env) (bucket prefix : string)
    (paths : list string) (uploaded : list string) (st : load_state)
    : load_state * outcome (list string) :=
  match paths with
  | [] => (st, Returned uploaded)
  | p :: rest =>
      match _upload_one_file env bucket prefix p (uploaded_objects st) with
      | (objs, Returned uri) =>
          upload_loop env bucket prefix rest (uploaded ++ [uri])
            (LoadState objs (log_etl_status "" p SUCCESS "" (load_log st)))
      | (objs, Raised e) =>
          if caught e
          then (LoadState objs
                  (log_etl_status "" p FAILED
                     ("S3 upload failed for " +:+ p +:+ ": " +:+ str e)
                     (load_log st)),
                Raised e)
          else (LoadState objs (load_log st), Raised e)
      end
  end.

(** The block under [# Collect all CSV files]. *)
Definition collect_paths (env : load_env) (clean_path : string)
    : outcome (list string) :=
  match stat env clean_path with
  | Directory names =>
      Returned (path_join clean_path <$>
                  filter (λ name, endswith (lower name) ".csv" = true) names)
  | _ =>
      if endswith (lower clean_path) ".csv" then Returned [clean_path]
      else Raised (ValueError ("❌ Expected a .csv file, got: " +:+ clean_path))
  end.

(** [upload_to_s3(clean_path)] *)
Definition upload_to_s3 (env : load_env) (clean_path : string) (st : load_state)
    : load_state * outcome (list string) :=
  match _read_config env CONFIG_PATH with
  | Raised e => (st, Raised e)
  | Returned cfg =>
      let bucket := bucket_name (s3 cfg) in
      let prefix := default "clean/" (clean_prefix (s3 cfg)) in
      if negb (truthy bucket)
      then (st, Raised (ValueError "❌ 'bucket_name' missing in aws_config.yaml under 's3'"))
      else
        match _make_s3_client cfg with
        | Raised e => (st, Raised e)
        | Returned _ =>
            if negb (exists_path env clean_path)
            then
              let msg := "❌ Path does not exist: " +:+ clean_path in
              (LoadState (uploaded_objects st)
                 (log_etl_status "" clean_path FAILED msg (load_log st)),
               Raised (FileNotFoundError msg))
            else
              match collect_paths env clean_path with
              | Raised e =>
                  (LoadState (uploaded_objects st)
                     (log_etl_status "" clean_path FAILED (str e) (load_log st)),
                   Raised e)
              | Returned [] =>
                  let msg := "No CSV files found to upload in: " +:+ clean_path in
                  (LoadState (uploaded_objects st)
                     (log_etl_status "" clean_path FAILED msg (load_log st)),
                   Raised (FileNotFoundError msg))
              | Returned paths =>
                  upload_loop env (default "" bucket) prefix paths [] st
              end
        end
  end.

End Load.

(* ===================================================================== *)
(** ** Ordered rule sets for condition codes                              *)
(* ===================================================================== *)

(** The decoding as the specification words it: a fixed, ordered set of
    rules, exact code matches and numeric ranges, first match wins, and a
    fallback label that keeps the raw code.  [weather_rules] lists the rules
    in the order of the [if]/[elif] chain of [interpret_weather_code]. *)

Inductive rule :=
  | Exact (codes : list Z) (label : string)
  | Range (lo hi : Z) (label : string).

Definition rule_matches (r : rule) (code : Z) : bool :=
  match r with
  | Exact codes _ => existsb (Z.eqb code) codes
  | Range lo hi _ => (lo <=? code)%Z && (code <=? hi)%Z
  end.

Definition rule_label (r : rule) : string :=
  match r with Exact _ l | Range _ _ l => l end.

Definition is_exact (r : rule) : bool :=
  match r with Exact _ _ => true | Range _ _ _ => false end.

Definition weather_rules : list rule :=
  [ Exact [0%Z] "Clear sky";
    Exact [1%Z] "Mostly clear";
    Exact [2%Z] "Partly cloudy";
    Exact [3%Z] "Overcast";
    Exact [45%Z; 48%Z] "Fog or Rime fog";
    Range 51 55 "Drizzle (Light to Dense)";
    Range 56 57 "Freezing Drizzle";
    Range 61 65 "Rain (Slight to Heavy)";
    Range 66 67 "Freezing Rain";
    Range 80 82 "Rain showers (Slight to Violent)";
    Range 85 86 "Snow showers (Slight to Heavy)";
    Exact [95%Z] "Thunderstorm (Slight or Moderate)";
    Range 96 99 "Thunderstorm with hail" ].

(** The same rules with every exact rule ahead of every range rule. *)
Definition exact_before_ranges (rules : list rule) : list rule :=
  filter (λ r, is_exact r = true) rules ++ filter (λ r, is_exact r = false) rules.

Fixpoint first_match (rules : list rule) (code : Z) : option string :=
  match rules with
  | [] => None
  | r :: rest => if rule_matches r code then Some (rule_label r) else first_match rest code
  end.

Definition unknown_code_label (code : Z) : string :=
  "Conditions Varies (WMO Code " +:+ pretty code +:+ ")".

Definition decode_with (rules : list rule) (code : Z) : string :=
  default (unknown_code_label code) (first_match rules code).

(** [sub] occurs in [s]. *)
Definition contains (s sub : string) : Prop :=
  ∃ pre post, s = pre +:+ sub +:+ post.

(* ===================================================================== *)
(** ** Concrete environments and inputs                                   *)
(* ===================================================================== *)

Module Examples.
Import Extract Transform Load.

(** A fetch cycle in which every request times out and the disk is fine. *)
Definition all_down : extract_env :=
  ExtractEnv (λ _ _, Raised (ConnectionError "timed out")) "20250101_090000"
    (λ _, None).

(** A fetch cycle in which only Lahore's request fails; every other city
    returns one point. *)
Definition one_hour : hourly :=
  Hourly ["2025-01-01T09:00"] ["20.1"] ["50"] [0%Z] ["5.0"].
Definition lahore_down : extract_env :=
  ExtractEnv
    (λ lat lon, if bool_decide (lat = "31.5497")
                then Raised (ConnectionError "timed out")
                else Returned one_hour)
    "20250101_090000" (λ _, None).

Definition extract_start : extract_state := ExtractState ∅ [].

End Examples.

(* ===================================================================== *)
(** ** Notions used to state the Reconciler's properties                  *)
(* ===================================================================== *)

Module ReconcilerSpec.
Import Transform.

(** The parsed timestamp of a point, if it has one. *)
Definition point_datetime (rec : raw_point) : option datetime :=
  time_PKT rec ≫= strptime.

(** The dedup key (date, time-of-day) of a parsed timestamp, as the tuple
    [key] of [transform_data]. *)
Definition key_of (dt : datetime) : list (option string) :=
  [Some (strftime_date dt); Some (strftime_time dt)].

(** The row [transform_data] queues for a point of [city] parsed as [dt]. *)
Definition canonical (city : string) (rec : raw_point) (dt : datetime) : clean_row :=
  CleanRow city (strftime_date dt) (strftime_time dt) (temperature_c rec)
    (humidity_percent rec) (conditions rec) (wind_speed_kmh rec).

(** The key set of one CSV file. *)
Definition file_keys (f : csv) : gset (list (option string)) :=
  foldl add_key ∅ (DictReader f).

(** Every dataset file in the clean directory starts with the header record
    that [append_rows] writes when it creates a file. *)
Definition dataset_store_ok (files : gmap string csv) : Prop :=
  ∀ p f, files !! p = Some f → head f = Some headers.

(** A record that contributes no dedup key under the field names
    [fieldnames]: its [date] or its [time_ampm] column is missing or empty. *)
Definition blank_key (fieldnames r : list string) : Prop :=
  truthy (row_get (dict_of_row fieldnames r) "date") = false ∨
  truthy (row_get (dict_of_row fieldnames r) "time_ampm") = false.



End ReconcilerSpec.

Module ReconcilerExamples.
Import Transform.

(** A disk on which every append succeeds. *)
Definition disk_ok : transform_env := TransformEnv (λ _, None).

Definition lahore_csv : string := csv_file_of CLEAN_DIR "Lahore".
Definition multan_csv : string := csv_file_of CLEAN_DIR "Multan".

(** A disk on which Lahore's dataset cannot be opened for appending. *)
Definition lahore_read_only : transform_env :=
  TransformEnv (λ p, if bool_decide (p = lahore_csv)
                     then Some (OSError "Permission denied") else None).

Definition at_0900_clear : raw_point :=
  RawPoint (Some "2025-01-01T09:00") "14.2" "71" "Clear sky" "6.1".
Definition at_0900_overcast : raw_point :=
  RawPoint (Some "2025-01-01T09:00") "14.2" "71" "Overcast" "6.1".
Definition at_1000 : raw_point :=
  RawPoint (Some "2025-01-01T10:00") "15.0" "69" "Mostly clear" "7.4".
Definition bad_time : raw_point :=
  RawPoint (Some "2025-01-01 09:00") "14.2" "71" "Clear sky" "6.1".

(** One snapshot per scenario, all stored under the same clean directory. *)
Definition start_with (data : snapshot) : transform_state :=
  TransformState {[ "raw.json" := data ]} ∅ [].

(** Lahore with two points at the same timestamp, codes 0 and 3. *)
Definition lahore_twice : snapshot :=
  [CityForecast (Some "Lahore") [at_0900_clear; at_0900_overcast]].

(** Multan with two distinct hours. *)
Definition multan_two_hours : snapshot :=
  [CityForecast (Some "Multan") [at_0900_clear; at_1000]].

(** Lahore, then Multan. *)
Definition lahore_then_multan : snapshot :=
  [CityForecast (Some "Lahore") [at_0900_clear];
   CityForecast (Some "Multan") [at_0900_clear]].

(** An entity without a name, then Multan. *)
Definition nameless_then_multan : snapshot :=
  [CityForecast None [at_0900_clear];
   CityForecast (Some "Multan") [at_0900_clear]].

End ReconcilerExamples.

Module ReconcilerStores.
Import Transform ReconcilerSpec ReconcilerExamples.

(** Multan's dataset already holds the 09:00 row. *)
Definition multan_has_0900 : transform_state :=
  TransformState {[ "raw.json" := multan_two_hours ]}
    {[ multan_csv :=
         [headers;
          write_row (CleanRow "Multan" "2025-01-01" "09:00 AM" "14.2" "71"
                       "Clear sky" "6.1")] ]}
    [].

(** The 09:00 Lahore row with its [time_ampm] cell blank. *)
Definition lahore_blank_time : list string :=
  ["Lahore"; "2025-01-01"; ""; "14.2"; "71"; "Clear sky"; "6.1"].

Definition lahore_blank_store : gmap string csv :=
  {[ lahore_csv := [headers; lahore_blank_time] ]}.

End ReconcilerStores.

(* ===================================================================== *)
(** ** Notions used to state the Publisher's properties                   *)
(* ===================================================================== *)

Module PublisherSpec.
Import Load.

(** The configuration resolves: the YAML document is read, it names a
    bucket, and the AWS section is complete.  [prefix] is the key prefix the
    run then uses. *)
Definition configured (env : load_env) (bucket prefix : string) : Prop :=
  ∃ cfg, _read_config env CONFIG_PATH = Returned cfg
         ∧ bucket_name (s3 cfg) = Some bucket
         ∧ bucket ≠ ""
         ∧ prefix = default "clean/" (clean_prefix (s3 cfg))
         ∧ _make_s3_client cfg = Returned tt.

Definition key_for (env : load_env) (prefix p : string) : string :=
  prefix +:+ upload_now env +:+ "_" +:+ basename p.

(** The object and the URI a successful upload of [p] leaves. *)
Definition object_for (env : load_env) (bucket prefix p : string) : s3_object :=
  S3Object p bucket (key_for env prefix p).
Definition uri_for (env : load_env) (bucket prefix p : string) : string :=
  "s3://" +:+ bucket +:+ "/" +:+ key_for env prefix p.

(** What [_upload_one_file] raises for [p], if anything. *)
Definition upload_error (env : load_env) (bucket prefix p : string)
    : option exception :=
  if negb (exists_path env p)
  then Some (FileNotFoundError ("Clean file not found: " +:+ p))
  else upload_file env p bucket (key_for env prefix p).

Definition success_row (p : string) : log_row := LogRow "" p SUCCESS "".
Definition failure_row (p : string) (e : exception) : log_row :=
  LogRow "" p FAILED ("S3 upload failed for " +:+ p +:+ ": " +:+ str e).

(** The entries of a directory listing whose names end in [.csv], whatever
    the case. *)
Definition csv_entries (names : list string) : list string :=
  filter (λ name, endswith (lower name) ".csv" = true) names.

End PublisherSpec.

Module PublisherExamples.
Import Load.

Definition complete_config : config :=
  Config (AwsSection (Some "ap-south-1") (Some "AKIAEXAMPLE") (Some "secret"))
         (S3Section (Some "weather-bucket") None).

(** A clean directory with three datasets and two other entries.  The upload
    of [multan_weather.csv] fails with [failure]. *)
Definition clean_dir_listing : list string :=
  ["lahore_weather.csv"; "notes.txt"; "multan_weather.csv"; "OKARA_WEATHER.CSV";
   "archive"].

Definition publisher (failure : option exception) : load_env :=
  LoadEnv (λ _, Yaml complete_config)
    (λ p, if bool_decide (p = "clean") then Directory clean_dir_listing
          else if bool_decide (p = "empty") then Directory ["notes.txt"; "archive"]
          else RegularFile)
    (λ local _ _, if bool_decide (local = "clean/multan_weather.csv")
                  then failure else None)
    "2025/01/01_093000".

Definition load_start : load_state := LoadState [] [].

End PublisherExamples.

(* ===================================================================== *)
(** ** Notions used to state further properties of the Fetcher            *)
(* ===================================================================== *)

Module FetcherSpec.
Import Extract.


(** The codes for which [interpret_weather_code] has a label of its own. *)
Definition known_codes : list Z :=
  [0; 1; 2; 3; 45; 48; 51; 52; 53; 54; 55; 56; 57; 61; 62; 63; 64; 65; 66; 67;
   80; 81; 82; 85; 86; 95; 96; 97; 98; 99]%Z.

(** A response whose humidity array is one element short. *)
Definition short_humidity : hourly :=
  Hourly ["2025-01-01T09:00"; "2025-01-01T10:00"] ["14.2"; "15.0"] ["71"]
    [0%Z; 1%Z] ["6.1"; "7.4"].



End FetcherSpec.

(* ===================================================================== *)
(** ** Notions used to state the properties of timestamps                 *)
(* ===================================================================== *)

Module TimestampSpec.
Import Transform.

(** A date and time of the proleptic Gregorian calendar, as [datetime]
    accepts them, to the minute. *)
Definition valid_datetime (dt : datetime) : Prop :=
  1 ≤ year dt < 10 ^ 4 ∧ 1 ≤ month dt ≤ 12
  ∧ 1 ≤ day dt ≤ days_in_month (year dt) (month dt)
  ∧ hour dt ≤ 23 ∧ minute dt ≤ 59.

(** The timestamp with every field zero-padded, [YYYY-MM-DDTHH:MM], as the
    weather source sends it. *)
Definition isoformat (dt : datetime) : string :=
  pad 4 (year dt) +:+ "-" +:+ pad 2 (month dt) +:+ "-" +:+ pad 2 (day dt)
    +:+ "T" +:+ pad 2 (hour dt) +:+ ":" +:+ pad 2 (minute dt).

Fixpoint str_forall (P : ascii → bool) (s : string) : bool :=
  match s with
  | EmptyString => true
  | String c s' => P c && str_forall P s'
  end.

Definition is_digit (c : ascii) : bool :=
  match digit_of c with Some _ => true | None => false end.

(** What is checked of a two-digit field, for each value below 100. *)
Definition two_digit_field_ok (n : nat) : bool :=
  str_forall is_digit (pad 2 n)
  && (String.length (pad 2 n) =? 2)%nat
  && bool_decide (number_of (pad 2 n) 0 = Some n)
  && bool_decide (field_m (pad 2 n) = within 1 12 n)
  && bool_decide (field_d (pad 2 n) = within 1 31 n)
  && bool_decide (field_H (pad 2 n) = within 0 23 n)
  && bool_decide (field_M (pad 2 n) = within 0 59 n).

(** The hour as [%I] and [%p] show it. *)
Definition hour12 (h : nat) : nat :=
  if (h mod 12 =? 0)%nat then 12 else h mod 12.

Definition hours_distinct (a b : nat) : bool :=
  implb ((hour12 a =? hour12 b)%nat && bool_decide ((a <? 12)%nat = (b <? 12)%nat))
        (a =? b)%nat.

End TimestampSpec.

(* ===================================================================== *)
(** ** Notions used to state further properties of the Reconciler         *)
(* ===================================================================== *)

Module ReconcilerSpec2.
Import Transform ReconcilerSpec.



(** The dedup key a record has under the dataset header. *)
Definition record_key (r : list string) : list (option string) :=
  [r !! 1%nat; r !! 2%nat].

(** The name a city's dataset file is derived from. *)
Definition normalise (city : string) : string := lower (replace " " "_" city).


(** The records [more] were appended after [f]: each has a date and a time
    cell, and their pair is not a key of [f]. *)
Definition fresh_after (f more : csv) : Prop :=
  ∀ r, r ∈ more → ∃ d t, r !! 1%nat = Some d ∧ r !! 2%nat = Some t
                         ∧ [Some d; Some t] ∉ file_keys f.

Definition appended_fresh (files files' : gmap string csv) : Prop :=
  ∀ p f, files !! p = Some f →
    ∃ more, files' !! p = Some (f ++ more) ∧ fresh_after f more.

End ReconcilerSpec2.

(* ===================================================================== *)
(** ** Notions used to state further properties of the Publisher          *)
(* ===================================================================== *)

Module PublisherSpec2.
Import Load PublisherSpec.

(** A name without a slash, as [os.listdir] returns them. *)
Definition slash_free (name : string) : Prop :=
  TimestampSpec.str_forall (λ c, negb (Ascii.eqb c "/")) name = true.

(** At most one row, and that one FAILED. *)
Definition at_most_one_failure (rows : list log_row) : Prop :=
  rows = [] ∨ ∃ row, rows = [row] ∧ log_status row = FAILED.

End PublisherSpec2.

(* ===================================================================== *)
(** ** dags/weather_etl_dag.py                                            *)
(* ===================================================================== *)

Module Dag.
Import Extract Transform Load.

(** What the tasks hand to each other through XCom: a path, or the list of
    uploaded URIs. *)
Inductive xcom_value :=
  | XPath (s : string)
  | XUris (l : list string).

(** The environments of the three stages. *)
Record dag_env := DagEnv {
  fetcher : extract_env;
  reconciler : transform_env;
  uploader : load_env
}.

(** The state the tasks work on: the raw and clean directories, the bucket,
    the audit log (the DAG file and [etl/extract.py] name the same log file)
    and the XCom table, keyed by task id and key. *)
Record dag_state := DagState {
  dag_raw : gmap string snapshot;
  dag_clean : gmap string csv;
  dag_bucket : list s3_object;
  dag_log : list log_row;
  xcom : gmap (string * string) xcom_value
}.

(** [context["ti"].xcom_pull(task_ids=..., key=...)] for a path *)
Definition xcom_pull (st : dag_state) (task_ids key : string) : option string :=
  match xcom st !! (task_ids, key) with
  | Some (XPath s) => Some s
  | _ => None
  end.

(** [context["ti"].xcom_push(key=..., value=...)] from the task [task_id] *)
Definition xcom_push (task_id key : string) (v : xcom_value) (st : dag_state)
    : dag_state :=
  DagState (dag_raw st) (dag_clean st) (dag_bucket st) (dag_log st)
    (<[(task_id, key) := v]> (xcom st)).

(** The DAG file's own [log_etl_status]; [None] is written as the empty
    string ([raw_file or ""]). *)
Definition dag_log_status (raw_file clean_file : option string) (s : status)
    (error_message : string) (st : dag_state) : dag_state :=
  DagState (dag_raw st) (dag_clean st) (dag_bucket st)
    (log_etl_status (default "" raw_file) (default "" clean_file) s error_message
       (dag_log st))
    (xcom st).

(** [os.path.exists] as the extract and transform tasks see it: the files of
    the two directories, and the directories themselves, which the stage
    modules create when they are imported. *)
Definition exists_local (st : dag_state) (p : string) : bool :=
  bool_decide (is_Some (dag_raw st !! p)) || bool_decide (is_Some (dag_clean st !! p))
  || bool_decide (p = RAW_DIR) || bool_decide (p = CLEAN_DIR).

(** [run_extract] *)
Definition run_extract (env : dag_env) (st : dag_state) : dag_state * outcome unit :=
  let '(est, r) := extract_data (fetcher env) (ExtractState (dag_raw st) (dag_log st)) in
  let st1 := DagState (raw_files est) (dag_clean st) (dag_bucket st) (extract_log est)
               (xcom st) in
  let fail e := (dag_log_status (Some "") (Some "") FAILED (str e) st1, Raised e) in
  match r with
  | Raised e => fail e
  | Returned raw_file =>
      if negb (truthy (Some raw_file)) || negb (exists_local st1 raw_file)
      then fail (ValueError "Extract task did not return a valid raw file path.")
      else (dag_log_status (Some raw_file) (Some "") SUCCESS ""
              (xcom_push "extract_weather_data" "raw_file" (XPath raw_file) st1),
            Returned tt)
  end.

(** [run_transform] *)
Definition run_transform (env : dag_env) (st : dag_state) : dag_state * outcome unit :=
  let fail e st' :=
    (dag_log_status (xcom_pull st' "extract_weather_data" "raw_file") (Some "")
       FAILED (str e) st',
     Raised e) in
  let raw_file := xcom_pull st "extract_weather_data" "raw_file" in
  if negb (truthy raw_file) || negb (exists_local st (default "" raw_file))
  then fail (ValueError "No raw_file path received from extract task.") st
  else
    let '(tst, r) :=
      transform_data (reconciler env) (default "" raw_file)
        (TransformState (dag_raw st) (dag_clean st) (dag_log st)) in
    let st1 := DagState (snapshots tst) (clean_files tst) (dag_bucket st)
                 (transform_log tst) (xcom st) in
    match r with
    | Raised e => fail e st1
    | Returned clean_file =>
        if negb (truthy (Some clean_file)) || negb (exists_local st1 clean_file)
        then fail (ValueError "Transform task did not return a valid clean file path.") st1
        else (dag_log_status raw_file (Some clean_file) SUCCESS ""
                (xcom_push "transform_weather_data" "clean_file" (XPath clean_file) st1),
              Returned tt)
    end.

(** [run_load].  The Publisher sees the disk through its own
    environment, and so does the task's [os.path.exists]. *)
Definition run_load (env : dag_env) (st : dag_state) : dag_state * outcome unit :=
  let fail e st' :=
    (dag_log_status (xcom_pull st' "extract_weather_data" "raw_file")
       (xcom_pull st' "transform_weather_data" "clean_file") FAILED (str e) st',
     Raised e) in
  let raw_file := xcom_pull st "extract_weather_data" "raw_file" in
  let clean_file := xcom_pull st "transform_weather_data" "clean_file" in
  if negb (truthy clean_file) || negb (exists_path (uploader env) (default "" clean_file))
  then fail (ValueError ("No valid clean_file found: " +:+ default "None" clean_file)) st
  else
    let '(lst, r) :=
      upload_to_s3 (uploader env) (default "" clean_file)
        (LoadState (dag_bucket st) (dag_log st)) in
    let st1 := DagState (dag_raw st) (dag_clean st) (uploaded_objects lst)
                 (load_log lst) (xcom st) in
    match r with
    | Raised e => fail e st1
    | Returned s3_uris =>
        (xcom_push "load_to_s3" "s3_uris" (XUris s3_uris)
           (dag_log_status raw_file clean_file SUCCESS "" st1),
         Returned tt)
    end.

(** A state in which nothing has run yet. *)
Definition fresh : dag_state := DagState ∅ ∅ [] [] ∅.

End Dag.

(* ===================================================================== *)
(** * Properties                                                          *)
(* ===================================================================== *)

(** ** Fetcher *)

Section FetcherFacts.
Import Extract.

Ltac settle_tests :=
  repeat match goal with
    | |- context [Z.eqb ?a ?b] => destruct (Z.eqb_spec a b); try lia
    | |- context [Z.leb ?a ?b] => destruct (Z.leb_spec a b); try lia
    end.

Lemma interpret_weather_code_source_order code :
  interpret_weather_code code = decode_with weather_rules code.
Proof.
  unfold interpret_weather_code, decode_with, unknown_code_label, weather_rules.
  cbn [first_match rule_matches rule_label existsb].
  settle_tests; reflexivity.
Qed.

Lemma interpret_weather_code_exact_first code :
  interpret_weather_code code = decode_with (exact_before_ranges weather_rules) code.
Proof.
  unfold interpret_weather_code, decode_with, unknown_code_label.
  let l := eval vm_compute in (exact_before_ranges weather_rules) in
  change (exact_before_ranges weather_rules) with l.
  cbn [first_match rule_matches rule_label existsb].
  settle_tests; reflexivity.
Qed.

(** C5. [interpret_weather_code] is the first-match decoding of the ordered
    rule set [weather_rules], and it is also the first-match decoding of the
    same rules with the exact matches checked before the ranges; code 66 is
    "Freezing Rain"; a code that matches no rule, such as 200, gets the
    fallback label, which contains the decimal text of the raw code. *)
Theorem interpret_weather_code_rules :
  (∀ code, interpret_weather_code code = decode_with weather_rules code) ∧
  (∀ code, interpret_weather_code code
           = decode_with (exact_before_ranges weather_rules) code) ∧
  interpret_weather_code 66 = "Freezing Rain" ∧
  (∀ code, contains (unknown_code_label code) (pretty code)) ∧
  first_match weather_rules 200 = None ∧
  interpret_weather_code 200 = "Conditions Varies (WMO Code 200)" ∧
  contains (interpret_weather_code 200) "200".
Proof.
  split_and!.
  - apply interpret_weather_code_source_order.
  - apply interpret_weather_code_exact_first.
  - reflexivity.
  - intros code. by exists "Conditions Varies (WMO Code ", ")".
  - reflexivity.
  - reflexivity.
  - by exists "Conditions Varies (WMO Code ", ")".
Qed.

End FetcherFacts.

Section FetcherStage.
Import Extract Examples.

Lemma fetch_all_down env cities :
  (∀ lat lon, is_raised (requests_get env lat lon) = true) →
  fetch_all env cities = [].
Proof.
  intros Hdown. induction cities as [|[name [lat lon]] rest IH]; [done|].
  cbn [fetch_all]. unfold fetch_city.
  specialize (Hdown lat lon). destruct (requests_get env lat lon); [done|].
  exact IH.
Qed.

(** The audit log after a fetch cycle: exactly one more row, and what it
    says depends on the disk only. *)
Lemma extract_data_log env st :
  extract_log (extract_data env st).1
  = extract_log st ++
    [match json_dump env (raw_file_path_of env) with
     | Some e => LogRow "" "" FAILED (str e)
     | None => LogRow (raw_file_path_of env) "" SUCCESS ""
     end].
Proof. unfold extract_data. by destruct (json_dump env _). Qed.

Lemma extract_data_raises env st :
  is_raised (extract_data env st).2 = true
  ↔ is_Some (json_dump env (raw_file_path_of env)).
Proof.
  unfold extract_data. destruct (json_dump env _) as [e|]; cbn.
  - split; [by eexists | done].
  - split; [done | by intros [? ?]].
Qed.

Lemma extract_data_raises_row env st :
  is_raised (extract_data env st).2 = true
  ↔ ∃ row, extract_log (extract_data env st).1 = extract_log st ++ [row]
           ∧ log_status row = FAILED.
Proof.
  rewrite extract_data_raises, extract_data_log.
  destruct (json_dump env _) as [e|]; split.
  - intros _. by eexists.
  - intros _. by eexists.
  - by intros [? ?].
  - intros (row & Heq & Hst). apply app_inj_tail in Heq as [_ <-]. done.
Qed.

(** C4, as the claim has it, fails: with every request failing and the disk
    fine, no entity is decoded, yet [extract_data] writes the empty snapshot,
    logs SUCCESS and returns its path. *)
Lemma extract_data_all_down_returns :
  fetch_all all_down PUNJAB_CITIES = [] ∧
  extract_data all_down extract_start
  = (ExtractState {[ raw_file_path_of all_down := [] ]}
       [LogRow (raw_file_path_of all_down) "" SUCCESS ""],
     Returned (raw_file_path_of all_down)).
Proof. split; reflexivity. Qed.

(** C4, amended.  [extract_data] raises exactly when persisting the snapshot
    raises, and exactly then the row it adds to the audit log is FAILED; when
    every per-city request fails and the disk is fine it writes the empty
    snapshot, logs SUCCESS and returns the path. *)
Theorem extract_data_fails_iff_dump_fails env st :
  (is_raised (extract_data env st).2 = true
   ↔ is_Some (json_dump env (raw_file_path_of env))) ∧
  (is_raised (extract_data env st).2 = true
   ↔ ∃ row, extract_log (extract_data env st).1 = extract_log st ++ [row]
            ∧ log_status row = FAILED) ∧
  ((∀ lat lon, is_raised (requests_get env lat lon) = true) →
   json_dump env (raw_file_path_of env) = None →
   extract_data env st
   = (ExtractState (<[raw_file_path_of env := []]> (raw_files st))
        (extract_log st ++ [LogRow (raw_file_path_of env) "" SUCCESS ""]),
      Returned (raw_file_path_of env))).
Proof.
  split_and!.
  - apply extract_data_raises.
  - apply extract_data_raises_row.
  - intros Hdown Hdump. unfold extract_data.
    rewrite Hdump, (fetch_all_down env _ Hdown). done.
Qed.

Lemma extract_data_fails_iff_dump_fails_witness :
  extract_data all_down extract_start
  = (ExtractState (<[raw_file_path_of all_down := []]> ∅)
       ([] ++ [LogRow (raw_file_path_of all_down) "" SUCCESS ""]),
     Returned (raw_file_path_of all_down)).
Proof.
  apply (proj2 (proj2 (extract_data_fails_iff_dump_fails all_down extract_start))).
  - intros lat lon. reflexivity.
  - reflexivity.
Defined.

End FetcherStage.

(** ** Reconciler *)

Section ReconcilerFacts.
Import Transform ReconcilerSpec.

Variable env : transform_env.
Variable clean_dir : string.

(** *** Keys *)

Lemma append_empty s t : s +:+ t = "" → s = "" ∧ t = "".
Proof. destruct s; cbn; [done | discriminate]. Qed.

Lemma strftime_date_nonempty dt : strftime_date dt ≠ "".
Proof.
  unfold strftime_date. intros H.
  apply append_empty in H as [_ H]. discriminate H.
Qed.

Lemma strftime_time_nonempty dt : strftime_time dt ≠ "".
Proof.
  unfold strftime_time. intros H.
  apply append_empty in H as [_ H]. discriminate H.
Qed.

Lemma key_of_truthy dt : forallb truthy (key_of dt) = true.
Proof.
  cbn. rewrite !bool_decide_eq_false_2; [done | |].
  - apply strftime_time_nonempty.
  - apply strftime_date_nonempty.
Qed.


Lemma add_key_subseteq keys row : keys ⊆ add_key keys row.
Proof. unfold add_key. case (forallb _ _); set_solver. Qed.

Lemma foldl_add_key_subseteq rows keys : keys ⊆ foldl add_key keys rows.
Proof.
  revert keys. induction rows as [|row rows IH]; intros keys; cbn; [done|].
  etrans; [apply add_key_subseteq | apply IH].
Qed.

Lemma foldl_add_key_elem rows keys row :
  row ∈ rows →
  forallb truthy (row_get row <$> DEDUP_FIELDS) = true →
  (row_get row <$> DEDUP_FIELDS) ∈ foldl add_key keys rows.
Proof.
  revert keys. induction rows as [|r rows IH]; intros keys Hin Htruthy.
  - by apply elem_of_nil in Hin.
  - apply elem_of_cons in Hin as [->|Hin]; cbn [foldl].
    + apply (foldl_add_key_subseteq rows). unfold add_key at 1.
      rewrite Htruthy. set_solver.
    + by apply IH.
Qed.

Lemma DictReader_app f more :
  f ≠ [] →
  DictReader (f ++ more)
  = DictReader f ++ (dict_of_row (default [] (head f)) <$> filter (λ r, r ≠ []) more).
Proof.
  destruct f as [|h rest]; [done|]. intros _. cbn [DictReader app head default].
  by rewrite filter_app, fmap_app.
Qed.

Lemma file_keys_app_subseteq f more : file_keys f ⊆ file_keys (f ++ more).
Proof.
  unfold file_keys. destruct (decide (f = [])) as [->|Hne]; [set_solver|].
  rewrite DictReader_app, foldl_app by done. apply foldl_add_key_subseteq.
Qed.


Lemma load_existing_keys_file_keys files p :
  load_existing_keys files p = default ∅ (file_keys <$> files !! p).
Proof. unfold load_existing_keys, file_keys. by destruct (files !! p). Qed.

Lemma load_existing_keys_insert (files : gmap string csv) p f :
  load_existing_keys (<[p := f]> files) p = file_keys f.
Proof. unfold load_existing_keys. by rewrite lookup_insert_eq. Qed.

(** *** The loop over one city's points *)


Lemma new_rows_inv c K pts r :
  r ∈ new_rows c K pts →
  ∃ rec dt, rec ∈ pts ∧ point_datetime rec = Some dt ∧ (key_of dt ∉ K) ∧
            r = canonical c rec dt.
Proof.
  unfold point_datetime, key_of, canonical.
  induction pts as [|q pts IH]; cbn [new_rows]; intros Hin.
  - by apply elem_of_nil in Hin.
  - destruct (mbind strptime (time_PKT q)) as [dq|] eqn:Hq.
    + case_bool_decide as HK.
      * destruct (IH Hin) as (rec & dt & ? & ?). exists rec, dt.
        split; [apply elem_of_cons; by right | done].
      * apply elem_of_cons in Hin as [->|Hin].
        -- exists q, dq. split; [apply elem_of_cons; by left | done].
        -- destruct (IH Hin) as (rec & dt & ? & ?). exists rec, dt.
           split; [apply elem_of_cons; by right | done].
    + destruct (IH Hin) as (rec & dt & ? & ?). exists rec, dt.
      split; [apply elem_of_cons; by right | done].
Qed.


(** A point whose timestamp does not parse contributes nothing. *)
Lemma new_rows_unparseable c K pre rec post :
  point_datetime rec = None →
  new_rows c K (pre ++ rec :: post) = new_rows c K (pre ++ post).
Proof.
  unfold point_datetime. intros Hnone.
  induction pre as [|q pre IH]; cbn [new_rows app].
  - by rewrite Hnone.
  - rewrite IH. done.
Qed.

(** *** One city *)

(** What one iteration of the city loop can do to the clean directory. *)
Lemma reconcile_city_inv cf files files' o :
  reconcile_city env clean_dir cf files = (files', o) →
  files' = files ∨
  ∃ c r rows,
    city cf = Some c ∧ o = Returned tt ∧
    new_rows c (load_existing_keys files (csv_file_of clean_dir c))
      (current_hourly_forecast_PKT cf) = r :: rows ∧
    files' = <[csv_file_of clean_dir c :=
                 default [headers] (files !! csv_file_of clean_dir c)
                 ++ (write_row <$> r :: rows)]> files.
Proof.
  unfold reconcile_city. destruct (city cf) as [c|]; [|intros [= <- <-]; by left].
  destruct (new_rows _ _ _) as [|r rows] eqn:Hrows; [intros [= <- <-]; by left|].
  unfold append_rows. destruct (open_append env _); [intros [= <- <-]; by left|].
  intros [= <- <-]. right. exists c, r, rows. by split_and!.
Qed.

Lemma reconcile_city_raised cf files files' e :
  reconcile_city env clean_dir cf files = (files', Raised e) → files' = files.
Proof.
  intros H. apply reconcile_city_inv in H as [H|(c & r & rows & _ & ? & _)]; done.
Qed.





Lemma reconcile_city_store_ok cf files files' o :
  dataset_store_ok files →
  reconcile_city env clean_dir cf files = (files', o) →
  dataset_store_ok files'.
Proof.
  intros Hok H p f Hp.
  apply reconcile_city_inv in H as [->|(c & r & rows & _ & _ & _ & ->)]; [by eapply Hok|].
  destruct (decide (p = csv_file_of clean_dir c)) as [->|Hne].
  - rewrite lookup_insert_eq in Hp. injection Hp as <-.
    destruct (files !! csv_file_of clean_dir c) as [f0|] eqn:H0; cbn [default].
    + specialize (Hok _ _ H0). destruct f0; [done|]. exact Hok.
    + done.
  - rewrite lookup_insert_ne in Hp by done. by eapply Hok.
Qed.





(** *** The loop over the cities *)

Lemma reconcile_cities_app pre post files :
  reconcile_cities env clean_dir (pre ++ post) files
  = match reconcile_cities env clean_dir pre files with
    | (files1, Returned _) => reconcile_cities env clean_dir post files1
    | (files1, Raised e) => (files1, Raised e)
    end.
Proof.
  revert files. induction pre as [|cf pre IH]; intros files; cbn; [done|].
  destruct (reconcile_city env clean_dir cf files) as [fA [u|e]]; [apply IH | done].
Qed.


Lemma reconcile_cities_store_ok data files files' o :
  dataset_store_ok files →
  reconcile_cities env clean_dir data files = (files', o) →
  dataset_store_ok files'.
Proof.
  revert files. induction data as [|cf rest IH]; intros files Hok; cbn.
  - by intros [= <- _].
  - destruct (reconcile_city env clean_dir cf files) as [fA [u|e]] eqn:Hc.
    + apply IH. by eapply reconcile_city_store_ok.
    + intros [= <- _]. by eapply reconcile_city_store_ok.
Qed.


End ReconcilerFacts.

Section ReconcilerStage.
Import Transform ReconcilerSpec ReconcilerExamples ReconcilerStores.

Variable env : transform_env.

(** [transform_data] never touches the snapshots. *)
Lemma transform_data_snapshots raw_file st :
  snapshots (transform_data env raw_file st).1 = snapshots st.
Proof.
  unfold transform_data. destruct (read_snapshot st raw_file); [|done].
  by destruct (reconcile_cities _ _ _ _) as [? [|]].
Qed.


Lemma transform_data_store_ok raw_file st :
  dataset_store_ok (clean_files st) →
  dataset_store_ok (clean_files (transform_data env raw_file st).1).
Proof.
  intros Hok. unfold transform_data. destruct (read_snapshot st raw_file) as [data|e]; [|done].
  destruct (reconcile_cities _ _ _ _) as [files' [u|e]] eqn:H; cbn;
    by eapply reconcile_cities_store_ok.
Qed.

(** The header invariant holds on an empty clean directory and after any
    sequence of runs from it. *)
Lemma run_all_store_ok raw_files st :
  dataset_store_ok (clean_files st) →
  dataset_store_ok (clean_files (run_all env raw_files st)).
Proof.
  revert st. induction raw_files as [|r rest IH]; intros st Hok; cbn; [done|].
  apply IH. by apply transform_data_store_ok.
Qed.

Lemma empty_store_ok : dataset_store_ok ∅.
Proof. intros p f Hp. by rewrite lookup_empty in Hp. Qed.

Lemma transform_data_run raw_file st data files1 o :
  snapshots st !! raw_file = Some data →
  reconcile_cities env CLEAN_DIR data (clean_files st) = (files1, o) →
  transform_data env raw_file st
  = (TransformState (snapshots st) files1
       (transform_log st ++
          [match o with
           | Returned _ => LogRow raw_file CLEAN_DIR SUCCESS ""
           | Raised e => LogRow raw_file "" FAILED (str e)
           end]),
     match o with
     | Returned _ => Returned CLEAN_DIR
     | Raised e => Raised e
     end).
Proof.
  intros Hsnap Hrun. unfold transform_data, read_snapshot.
  rewrite Hsnap, Hrun. by destruct o.
Qed.





(** C2, the code at the claim's own scenario: two Lahore points at
    2025-01-01T09:00, conditions "Clear sky" then "Overcast", empty dataset.
    One run appends both rows. *)
Lemma transform_data_keeps_in_run_duplicates :
  clean_files (transform_data disk_ok "raw.json" (start_with lahore_twice)).1
    !! lahore_csv
  = Some [headers;
          ["Lahore"; "2025-01-01"; "09:00 AM"; "14.2"; "71"; "Clear sky"; "6.1"];
          ["Lahore"; "2025-01-01"; "09:00 AM"; "14.2"; "71"; "Overcast"; "6.1"]].
Proof. vm_compute. reflexivity. Qed.

(** C3, as the claim has it, fails.  Lahore's dataset cannot be opened for
    appending: the run raises although the snapshot was read, and Multan,
    which comes next and has a new row, gets no dataset.  The same happens
    when the first entity has no name. *)
Lemma transform_data_no_isolation :
  snapshots (start_with lahore_then_multan) !! "raw.json" = Some lahore_then_multan
  ∧ transform_data lahore_read_only "raw.json" (start_with lahore_then_multan)
    = (TransformState {[ "raw.json" := lahore_then_multan ]} ∅
         [LogRow "raw.json" "" FAILED "Permission denied"],
       Raised (OSError "Permission denied"))
  ∧ clean_files (transform_data disk_ok "raw.json" (start_with lahore_then_multan)).1
      !! multan_csv
    = Some [headers; write_row (canonical "Multan" at_0900_clear
                                  (DateTime 2025 1 1 9 0))]
  ∧ (transform_data disk_ok "raw.json" (start_with nameless_then_multan)).2
    = Raised (AttributeError "'NoneType' object has no attribute 'replace'")
  ∧ clean_files (transform_data disk_ok "raw.json" (start_with nameless_then_multan)).1
    = ∅.
Proof. split_and!; vm_compute; reflexivity. Qed.

(** When one iteration of the city loop raises. *)
Lemma reconcile_city_raises_iff clean_dir cf files e :
  (reconcile_city env clean_dir cf files).2 = Raised e
  ↔ (city cf = None ∧ e = AttributeError "'NoneType' object has no attribute 'replace'")
    ∨ ∃ c, city cf = Some c
           ∧ new_rows c (load_existing_keys files (csv_file_of clean_dir c))
               (current_hourly_forecast_PKT cf) ≠ []
           ∧ open_append env (csv_file_of clean_dir c) = Some e.
Proof.
  unfold reconcile_city. destruct (city cf) as [c|].
  - destruct (new_rows _ _ _) as [|r rows] eqn:Hrows.
    + split; [done|]. intros [[? _]|(c' & Hc & Hne & _)]; [done|].
      injection Hc as <-. by rewrite Hrows in Hne.
    + unfold append_rows. destruct (open_append env _) as [e'|] eqn:Ho; cbn [snd].
      * split.
        -- intros [= <-]. right. exists c. by rewrite Hrows, Ho.
        -- intros [[? _]|(c' & Hc & _ & He)]; [done|].
           injection Hc as <-. rewrite Ho in He. by injection He as <-.
      * split; [done|]. intros [[? _]|(c' & Hc & _ & He)]; [done|].
        injection Hc as <-. by rewrite Ho in He.
  - split.
    + intros [= <-]. by left.
    + intros [[_ ->]|(c & ? & _)]; done.
Qed.

(** C3, amended.  The city loop has no per-city handler: when the cities
    before [cf] were reconciled and [cf] fails, because it has no name or
    because its dataset cannot be opened for appending, [transform_data] keeps
    what the earlier cities appended, reconciles no later city, adds a FAILED
    row to the audit log and re-raises. *)
Theorem transform_data_stops_at_failing_city raw_file st pre cf post files1 e :
  snapshots st !! raw_file = Some (pre ++ cf :: post) →
  reconcile_cities env CLEAN_DIR pre (clean_files st) = (files1, Returned tt) →
  (city cf = None ∧ e = AttributeError "'NoneType' object has no attribute 'replace'")
  ∨ (∃ c, city cf = Some c
          ∧ new_rows c (load_existing_keys files1 (csv_file_of CLEAN_DIR c))
              (current_hourly_forecast_PKT cf) ≠ []
          ∧ open_append env (csv_file_of CLEAN_DIR c) = Some e) →
  transform_data env raw_file st
  = (TransformState (snapshots st) files1
       (transform_log st ++ [LogRow raw_file "" FAILED (str e)]),
     Raised e).
Proof.
  intros Hsnap Hpre Hfail.
  apply (reconcile_city_raises_iff CLEAN_DIR cf files1 e) in Hfail.
  destruct (reconcile_city env CLEAN_DIR cf files1) as [fA o] eqn:Hcf.
  cbn in Hfail. subst o.
  pose proof (reconcile_city_raised env CLEAN_DIR _ _ _ _ Hcf) as ->.
  apply (transform_data_run raw_file st _ files1 (Raised e) Hsnap).
  rewrite reconcile_cities_app, Hpre. cbn. by rewrite Hcf.
Qed.

(** *** Rows without a dedup key *)

Lemma add_key_blank keys h r :
  blank_key h r → add_key keys (dict_of_row h r) = keys.
Proof.
  unfold blank_key, add_key, DEDUP_FIELDS. cbn [fmap list_fmap forallb].
  intros [H|H]; rewrite H; [done|]. by rewrite andb_false_r.
Qed.

Lemma file_keys_without_blank h (pre : csv) r post :
  blank_key h r → file_keys (h :: pre ++ r :: post) = file_keys (h :: pre ++ post).
Proof.
  intros Hblank. unfold file_keys. cbn [DictReader].
  rewrite !filter_app, filter_cons. case_decide.
  - rewrite !fmap_app, fmap_cons, !foldl_app. cbn [foldl].
    by rewrite add_key_blank.
  - done.
Qed.

Lemma headers_row_get_date (r : list string) :
  row_get (dict_of_row headers r) "date" = r !! 1%nat.
Proof.
  destruct r as [|c0 [|c1 [|c2 [|c3 [|c4 [|c5 [|c6 r]]]]]]];
    try (vm_compute; reflexivity).
  unfold dict_of_row. rewrite drop_ge by (cbn; lia). vm_compute. reflexivity.
Qed.

Lemma headers_row_get_time_ampm (r : list string) :
  row_get (dict_of_row headers r) "time_ampm" = r !! 2%nat.
Proof.
  destruct r as [|c0 [|c1 [|c2 [|c3 [|c4 [|c5 [|c6 r]]]]]]];
    try (vm_compute; reflexivity).
  unfold dict_of_row. rewrite drop_ge by (cbn; lia). vm_compute. reflexivity.
Qed.

(** Under the dataset header, a record has no dedup key exactly when its
    second or third cell is missing or empty. *)
Lemma blank_key_headers (r : list string) :
  blank_key headers r ↔ truthy (r !! 1%nat) = false ∨ truthy (r !! 2%nat) = false.
Proof.
  unfold blank_key. by rewrite headers_row_get_date, headers_row_get_time_ampm.
Qed.

(** C9. A persisted record whose [date] or [time_ampm] column is missing or
    empty contributes no key to [load_existing_keys]: the key set, and so the
    rows any later run queues, are what they would be with that record
    deleted.  In particular a point whose key no other record carries is
    appended although the file holds such a record, for instance that very
    row with a dedup column blanked, which leaves two rows for the one
    observation. *)
Theorem blank_rows_never_suppress clean_dir (files : gmap string csv)
    path h (pre : csv) r post :
  files !! path = Some (h :: pre ++ r :: post) →
  blank_key h r →
  load_existing_keys files path
  = load_existing_keys (<[path := h :: pre ++ post]> files) path
  ∧ (∀ c pts,
       new_rows c (load_existing_keys files path) pts
       = new_rows c (load_existing_keys (<[path := h :: pre ++ post]> files) path) pts)
  ∧ (∀ c rec dt,
       csv_file_of clean_dir c = path →
       point_datetime rec = Some dt →
       key_of dt ∉ file_keys (h :: pre ++ post) →
       open_append env path = None →
       reconcile_city env clean_dir (CityForecast (Some c) [rec]) files
       = (<[path := (h :: pre ++ r :: post) ++ [write_row (canonical c rec dt)]]> files,
          Returned tt)).
Proof.
  intros Hfile Hblank.
  assert (load_existing_keys files path = file_keys (h :: pre ++ post)) as Hkeys.
  { rewrite load_existing_keys_file_keys, Hfile. cbn [fmap option_fmap option_map default].
    by apply file_keys_without_blank. }
  split_and!.
  - by rewrite Hkeys, load_existing_keys_insert.
  - intros c pts. by rewrite Hkeys, load_existing_keys_insert.
  - intros c rec dt Hpath Hdt Hfresh Hopen.
    unfold reconcile_city. cbn [city current_hourly_forecast_PKT]. rewrite Hpath, Hkeys.
    cbn [new_rows]. unfold point_datetime in Hdt. rewrite Hdt.
    rewrite bool_decide_eq_false_2 by exact Hfresh.
    unfold append_rows. by rewrite Hopen, Hfile.
Qed.

End ReconcilerStage.

(** ** The audit log *)

Section AuditLog.
Import Extract Transform ReconcilerSpec Examples ReconcilerExamples.

(** C6, as the claim has it, fails: Lahore's request fails, the city is left
    out of the snapshot, and the only row the run adds to the audit log is
    the SUCCESS row of the stage. *)
Lemma fetch_failure_leaves_no_audit_row :
  is_raised (fetch_city lahore_down "Lahore" "31.5497" "74.3436") = true
  ∧ extract_log (extract_data lahore_down extract_start).1
    = [LogRow (raw_file_path_of lahore_down) "" SUCCESS ""]
  ∧ (extract_data lahore_down extract_start).2
    = Returned (raw_file_path_of lahore_down).
Proof. split_and!; reflexivity. Qed.

Lemma reconcile_city_unparseable env clean_dir c pre rec post files :
  point_datetime rec = None →
  reconcile_city env clean_dir (CityForecast c (pre ++ rec :: post)) files
  = reconcile_city env clean_dir (CityForecast c (pre ++ post)) files.
Proof.
  intros Hnone. unfold reconcile_city. cbn [city current_hourly_forecast_PKT].
  destruct c as [c|]; [|done]. by rewrite new_rows_unparseable.
Qed.

Lemma reconcile_cities_congr env clean_dir A cf cf' B files :
  (∀ files, reconcile_city env clean_dir cf files = reconcile_city env clean_dir cf' files) →
  reconcile_cities env clean_dir (A ++ cf :: B) files
  = reconcile_cities env clean_dir (A ++ cf' :: B) files.
Proof.
  intros Heq. rewrite !reconcile_cities_app.
  destruct (reconcile_cities env clean_dir A files) as [f1 [u|e]]; [|done].
  cbn [reconcile_cities]. by rewrite Heq.
Qed.

(** C6, amended.  A failure that makes [extract_data] or [transform_data]
    raise, a failed dataset write included, is preceded by a FAILED row in the
    audit log.  Two failures leave no row: a city whose fetch or decoding
    fails in [extract_data] (the run adds exactly one row, and the disk alone
    decides which), and a point whose timestamp does not parse in
    [transform_data], where the run is, in files, log and outcome, the run on
    the snapshot without that point. *)
Theorem failures_and_the_audit_log :
  (∀ eenv est,
     is_raised (extract_data eenv est).2 = true →
     ∃ row, extract_log (extract_data eenv est).1 = extract_log est ++ [row]
            ∧ log_status row = FAILED) ∧
  (∀ env raw_file st e,
     (transform_data env raw_file st).2 = Raised e →
     transform_log (transform_data env raw_file st).1
     = transform_log st ++ [LogRow raw_file "" FAILED (str e)]) ∧
  (∀ eenv est,
     extract_log (extract_data eenv est).1
     = extract_log est ++
       [match json_dump eenv (raw_file_path_of eenv) with
        | Some e => LogRow "" "" FAILED (str e)
        | None => LogRow (raw_file_path_of eenv) "" SUCCESS ""
        end]) ∧
  (∀ env raw_file S files log A c pre rec post B,
     point_datetime rec = None →
     transform_data env raw_file
       (TransformState (<[raw_file := A ++ CityForecast c (pre ++ rec :: post) :: B]> S)
          files log)
     = let r := transform_data env raw_file
                  (TransformState (<[raw_file := A ++ CityForecast c (pre ++ post) :: B]> S)
                     files log) in
       (TransformState (<[raw_file := A ++ CityForecast c (pre ++ rec :: post) :: B]> S)
          (clean_files r.1) (transform_log r.1),
        r.2)).
Proof.
  split_and!.
  - intros eenv est Hr.
    by apply extract_data_raises_row.
  - intros env raw_file st e. unfold transform_data.
    destruct (read_snapshot st raw_file) as [data|e'].
    + destruct (reconcile_cities _ _ _ _) as [f [u|e']]; cbn; [done|].
      by intros [= <-].
    + cbn. by intros [= <-].
  - apply extract_data_log.
  - intros env raw_file S files log A c pre rec post B Hnone.
    unfold transform_data, read_snapshot. cbn [snapshots clean_files transform_log].
    rewrite !lookup_insert_eq.
    rewrite (reconcile_cities_congr env CLEAN_DIR A _ (CityForecast c (pre ++ post)) B)
      by (intros f; by apply reconcile_city_unparseable).
    by destruct (reconcile_cities _ _ _ _) as [f [u|e]].
Qed.

Lemma failures_and_the_audit_log_witness :
  point_datetime bad_time = None
  ∧ clean_files
      (transform_data disk_ok "raw.json"
         (TransformState
            (<["raw.json" := [] ++ CityForecast (Some "Multan")
                                     ([at_0900_clear] ++ bad_time :: [at_1000]) :: []]> ∅)
            ∅ [])).1
    = clean_files
        (transform_data disk_ok "raw.json"
           (TransformState
              (<["raw.json" := [] ++ CityForecast (Some "Multan")
                                       ([at_0900_clear] ++ [at_1000]) :: []]> ∅)
              ∅ [])).1.
Proof.
  assert (point_datetime bad_time = None) as Hbad by reflexivity.
  split; [exact Hbad|].
  rewrite (proj2 (proj2 (proj2 failures_and_the_audit_log))
             disk_ok "raw.json" ∅ ∅ [] [] (Some "Multan") [at_0900_clear] bad_time
             [at_1000] [] Hbad).
  reflexivity.
Defined.

End AuditLog.

(** ** Publisher *)

Section PublisherFacts.
Import Load PublisherSpec.

Variable env : load_env.
Variables bucket prefix : string.

Lemma _upload_one_file_spec p objs :
  _upload_one_file env bucket prefix p objs
  = match upload_error env bucket prefix p with
    | Some e => (objs, Raised e)
    | None => (objs ++ [object_for env bucket prefix p],
               Returned (uri_for env bucket prefix p))
    end.
Proof.
  unfold _upload_one_file, upload_error, object_for, uri_for, key_for.
  destruct (negb (exists_path env p)); [done|].
  by destruct (upload_file env p bucket _).
Qed.

(** The loop, once the files of [pre] have all been uploaded. *)
Lemma upload_loop_app pre rest uploaded st :
  Forall (λ q, upload_error env bucket prefix q = None) pre →
  upload_loop env bucket prefix (pre ++ rest) uploaded st
  = upload_loop env bucket prefix rest
      (uploaded ++ (uri_for env bucket prefix <$> pre))
      (LoadState (uploaded_objects st ++ (object_for env bucket prefix <$> pre))
                 (load_log st ++ (success_row <$> pre))).
Proof.
  revert uploaded st. induction pre as [|q pre IH]; intros uploaded st Hok.
  - cbn. rewrite !app_nil_r. by destruct st.
  - apply Forall_cons in Hok as [Hq Hpre]. cbn [app upload_loop].
    rewrite _upload_one_file_spec, Hq. rewrite (IH _ _ Hpre).
    cbn [uploaded_objects load_log fmap list_fmap]. unfold log_etl_status.
    by rewrite <- !app_assoc.
Qed.

(** The loop at a file whose upload raises. *)
Lemma upload_loop_raise p rest uploaded st e :
  upload_error env bucket prefix p = Some e →
  upload_loop env bucket prefix (p :: rest) uploaded st
  = (LoadState (uploaded_objects st)
       (load_log st ++ (if caught e then [failure_row p e] else [])),
     Raised e).
Proof.
  intros He. cbn [upload_loop]. rewrite _upload_one_file_spec, He.
  destruct (caught e); [done|]. by rewrite app_nil_r.
Qed.

(** The objects a run of the loop leaves are those of an initial segment of
    its list of paths. *)
Lemma upload_loop_objects paths uploaded st :
  ∃ sent, sent `prefix_of` paths
          ∧ uploaded_objects (upload_loop env bucket prefix paths uploaded st).1
            = uploaded_objects st ++ (object_for env bucket prefix <$> sent).
Proof.
  revert uploaded st. induction paths as [|p rest IH]; intros uploaded st.
  - exists []. split; [done|]. cbn. by rewrite app_nil_r.
  - destruct (upload_error env bucket prefix p) as [e|] eqn:He.
    + exists []. split; [apply prefix_nil|].
      rewrite (upload_loop_raise p rest uploaded st e He). cbn. by rewrite app_nil_r.
    + cbn [upload_loop]. rewrite _upload_one_file_spec, He.
      destruct (IH (uploaded ++ [uri_for env bucket prefix p])
                  (LoadState (uploaded_objects st ++ [object_for env bucket prefix p])
                     (log_etl_status "" p SUCCESS "" (load_log st))))
        as (sent & Hsent & Hobjs).
      exists (p :: sent). split; [by apply prefix_cons|].
      rewrite Hobjs. cbn. by rewrite <- app_assoc.
Qed.

(** [upload_to_s3] once the configuration has resolved. *)
Lemma upload_to_s3_configured clean_path st :
  configured env bucket prefix →
  upload_to_s3 env clean_path st
  = if negb (exists_path env clean_path)
    then (LoadState (uploaded_objects st)
            (load_log st ++ [LogRow "" clean_path FAILED
                               ("❌ Path does not exist: " +:+ clean_path)]),
          Raised (FileNotFoundError ("❌ Path does not exist: " +:+ clean_path)))
    else match collect_paths env clean_path with
         | Raised e =>
             (LoadState (uploaded_objects st)
                (load_log st ++ [LogRow "" clean_path FAILED (str e)]),
              Raised e)
         | Returned [] =>
             (LoadState (uploaded_objects st)
                (load_log st ++ [LogRow "" clean_path FAILED
                                   ("No CSV files found to upload in: " +:+ clean_path)]),
              Raised (FileNotFoundError
                        ("No CSV files found to upload in: " +:+ clean_path)))
         | Returned paths => upload_loop env bucket prefix paths [] st
         end.
Proof.
  intros (cfg & Hcfg & Hbucket & Hne & -> & Hclient).
  unfold upload_to_s3. rewrite Hcfg, Hbucket, Hclient. cbn [truthy default].
  rewrite bool_decide_eq_false_2 by done. cbn [negb].
  destruct (negb (exists_path env clean_path)); [done|].
  by destruct (collect_paths env clean_path) as [[|p paths]|e].
Qed.

End PublisherFacts.

Section PublisherStage.
Import Load PublisherSpec PublisherExamples.

Lemma publisher_configured failure :
  configured (publisher failure) "weather-bucket" "clean/".
Proof. exists complete_config. by split_and!. Qed.

(** C8, as the claim has it, fails: the upload of the second dataset raises
    an [OSError], which is not one of the classes the loop's handler names.
    The exception leaves [upload_to_s3] at once, the first dataset stays
    uploaded and the third is never tried, but no FAILED row is written for
    the file that failed. *)
Lemma upload_to_s3_unlisted_exception_not_logged :
  upload_to_s3 (publisher (Some (OSError "Permission denied"))) "clean" load_start
  = (LoadState
       [S3Object "clean/lahore_weather.csv" "weather-bucket"
          "clean/2025/01/01_093000_lahore_weather.csv"]
       [LogRow "" "clean/lahore_weather.csv" SUCCESS ""],
     Raised (OSError "Permission denied")).
Proof. vm_compute. reflexivity. Qed.

(** C8, amended.  Files are uploaded one at a time in list order.  At the
    first file whose upload raises, the exception is re-raised at once: the
    files before it stay uploaded, each with its SUCCESS row, and no file
    after it is uploaded.  A FAILED row for the failing file is written first
    when the exception is a [FileNotFoundError], [NoCredentialsError],
    [BotoCoreError] or [ClientError]; any other exception leaves without a
    row. *)
Theorem upload_to_s3_fail_fast env clean_path st bucket prefix pre p post e :
  configured env bucket prefix →
  exists_path env clean_path = true →
  collect_paths env clean_path = Returned (pre ++ p :: post) →
  Forall (λ q, upload_error env bucket prefix q = None) pre →
  upload_error env bucket prefix p = Some e →
  upload_to_s3 env clean_path st
  = (LoadState (uploaded_objects st ++ (object_for env bucket prefix <$> pre))
       (load_log st ++ (success_row <$> pre)
        ++ (if caught e then [failure_row p e] else [])),
     Raised e).
Proof.
  intros Hcfg Hexists Hpaths Hpre He.
  rewrite (upload_to_s3_configured env bucket prefix clean_path st Hcfg).
  rewrite Hexists, Hpaths. cbn [negb].
  assert (upload_loop env bucket prefix (pre ++ p :: post) [] st
          = (LoadState (uploaded_objects st ++ (object_for env bucket prefix <$> pre))
               (load_log st ++ (success_row <$> pre)
                ++ (if caught e then [failure_row p e] else [])),
             Raised e)) as Hloop.
  { rewrite (upload_loop_app env bucket prefix pre (p :: post) [] st Hpre).
    rewrite (upload_loop_raise env bucket prefix p post _ _ e He).
    cbn [uploaded_objects load_log]. by rewrite <- app_assoc. }
  destruct (pre ++ p :: post) as [|q qs] eqn:Hl; [by destruct pre|exact Hloop].
Qed.

Lemma upload_to_s3_fail_fast_witness :
  upload_to_s3 (publisher (Some (ClientError "AccessDenied"))) "clean" load_start
  = (LoadState
       (uploaded_objects load_start
        ++ (object_for (publisher (Some (ClientError "AccessDenied")))
              "weather-bucket" "clean/" <$> ["clean/lahore_weather.csv"]))
       (load_log load_start ++ (success_row <$> ["clean/lahore_weather.csv"])
        ++ (if caught (ClientError "AccessDenied")
            then [failure_row "clean/multan_weather.csv" (ClientError "AccessDenied")]
            else [])),
     Raised (ClientError "AccessDenied")).
Proof.
  apply (upload_to_s3_fail_fast (publisher (Some (ClientError "AccessDenied")))
           "clean" load_start "weather-bucket" "clean/"
           ["clean/lahore_weather.csv"] "clean/multan_weather.csv"
           ["clean/OKARA_WEATHER.CSV"]).
  - apply publisher_configured.
  - reflexivity.
  - reflexivity.
  - apply Forall_cons. split; [reflexivity | apply Forall_nil_2].
  - reflexivity.
Defined.

(** C10. Once the configuration has resolved: for an existing regular file
    whose name does not end in [.csv], whatever the case, [upload_to_s3]
    writes a FAILED row and raises [ValueError], and uploads nothing; for a
    directory it tries the top-level entries whose names end in [.csv], in
    listing order and nothing else, raises [FileNotFoundError] after a FAILED
    row when there is no such entry, and returns their URIs when every upload
    succeeds. *)
Theorem upload_to_s3_collects_csv env clean_path st bucket prefix :
  configured env bucket prefix →
  (stat env clean_path = RegularFile →
   endswith (lower clean_path) ".csv" = false →
   upload_to_s3 env clean_path st
   = (LoadState (uploaded_objects st)
        (load_log st ++ [LogRow "" clean_path FAILED
                           ("❌ Expected a .csv file, got: " +:+ clean_path)]),
      Raised (ValueError ("❌ Expected a .csv file, got: " +:+ clean_path))))
  ∧ (∀ names,
       stat env clean_path = Directory names →
       (csv_entries names = [] →
        upload_to_s3 env clean_path st
        = (LoadState (uploaded_objects st)
             (load_log st ++ [LogRow "" clean_path FAILED
                                ("No CSV files found to upload in: " +:+ clean_path)]),
           Raised (FileNotFoundError
                     ("No CSV files found to upload in: " +:+ clean_path))))
       ∧ (∃ sent, sent `prefix_of` csv_entries names
                  ∧ uploaded_objects (upload_to_s3 env clean_path st).1
                    = uploaded_objects st
                      ++ (object_for env bucket prefix
                          <$> (path_join clean_path <$> sent)))
       ∧ (csv_entries names ≠ [] →
          Forall (λ name, upload_error env bucket prefix (path_join clean_path name) = None)
            (csv_entries names) →
          upload_to_s3 env clean_path st
          = (LoadState
               (uploaded_objects st
                ++ (object_for env bucket prefix
                    <$> (path_join clean_path <$> csv_entries names)))
               (load_log st
                ++ (success_row <$> (path_join clean_path <$> csv_entries names))),
             Returned (uri_for env bucket prefix
                       <$> (path_join clean_path <$> csv_entries names))))).
Proof.
  intros Hcfg. split.
  - intros Hfile Hext.
    rewrite (upload_to_s3_configured env bucket prefix clean_path st Hcfg).
    unfold exists_path, collect_paths. by rewrite Hfile, Hext.
  - intros names Hdir.
    rewrite (upload_to_s3_configured env bucket prefix clean_path st Hcfg).
    unfold exists_path, collect_paths. rewrite Hdir. cbn [negb].
    fold (csv_entries names). split_and!.
    + by intros ->.
    + destruct (csv_entries names) as [|n ns] eqn:Hn.
      * exists []. split; [done|]. cbn. by rewrite app_nil_r.
      * cbn [fmap list_fmap].
        destruct (upload_loop_objects env bucket prefix
                    (path_join clean_path <$> n :: ns) [] st)
          as (sent & [rest Hsent] & Hobjs).
        apply fmap_app_inv in Hsent as (s1 & s2 & -> & _ & Hs).
        exists s1. split; [by exists s2|]. exact Hobjs.
    + intros Hne Hall.
      destruct (csv_entries names) as [|n ns] eqn:Hn; [done|].
      cbn [fmap list_fmap].
      pose proof (upload_loop_app env bucket prefix
                    (path_join clean_path <$> n :: ns) [] [] st) as Hloop.
      rewrite app_nil_r in Hloop. cbn [fmap list_fmap] in Hloop.
      rewrite Hloop; [done|].
      apply (Forall_fmap (path_join clean_path)
               (λ q, upload_error env bucket prefix q = None) (n :: ns)).
      exact Hall.
Qed.

Lemma upload_to_s3_collects_csv_witness :
  configured (publisher None) "weather-bucket" "clean/"
  ∧ upload_to_s3 (publisher None) "notes.txt" load_start
    = (LoadState (uploaded_objects load_start)
         (load_log load_start
          ++ [LogRow "" "notes.txt" FAILED ("❌ Expected a .csv file, got: " +:+ "notes.txt")]),
       Raised (ValueError ("❌ Expected a .csv file, got: " +:+ "notes.txt"))).
Proof.
  split; [apply publisher_configured|].
  apply (proj1 (upload_to_s3_collects_csv (publisher None) "notes.txt" load_start
                  "weather-bucket" "clean/" (publisher_configured None))).
  - reflexivity.
  - reflexivity.
Defined.

(** The directory case on a concrete listing: the two other entries are not
    uploaded, the name in upper case is, and nothing is listed below the top
    level. *)
Example upload_to_s3_directory :
  uploaded_objects (upload_to_s3 (publisher None) "clean" load_start).1
  = [S3Object "clean/lahore_weather.csv" "weather-bucket"
       "clean/2025/01/01_093000_lahore_weather.csv";
     S3Object "clean/multan_weather.csv" "weather-bucket"
       "clean/2025/01/01_093000_multan_weather.csv";
     S3Object "clean/OKARA_WEATHER.CSV" "weather-bucket"
       "clean/2025/01/01_093000_OKARA_WEATHER.CSV"]
  ∧ (upload_to_s3 (publisher None) "empty" load_start).2
    = Raised (FileNotFoundError "No CSV files found to upload in: empty").
Proof. split; vm_compute; reflexivity. Qed.

End PublisherStage.

Section ReconcilerWitnesses.
Import Transform ReconcilerSpec ReconcilerExamples ReconcilerStores.




Lemma transform_data_stops_at_failing_city_witness :
  transform_data lahore_read_only "raw.json" (start_with lahore_then_multan)
  = (TransformState (snapshots (start_with lahore_then_multan)) ∅
       (transform_log (start_with lahore_then_multan)
        ++ [LogRow "raw.json" "" FAILED (str (OSError "Permission denied"))]),
     Raised (OSError "Permission denied")).
Proof.
  apply (transform_data_stops_at_failing_city lahore_read_only "raw.json"
           (start_with lahore_then_multan) []
           (CityForecast (Some "Lahore") [at_0900_clear])
           [CityForecast (Some "Multan") [at_0900_clear]]).
  - reflexivity.
  - reflexivity.
  - right. exists "Lahore". split; [reflexivity|]. split; [|reflexivity].
    vm_compute. discriminate.
Defined.

Lemma blank_rows_never_suppress_witness :
  lahore_blank_store !! lahore_csv = Some (headers :: [] ++ lahore_blank_time :: [])
  ∧ blank_key headers lahore_blank_time
  ∧ reconcile_city disk_ok CLEAN_DIR (CityForecast (Some "Lahore") [at_0900_clear])
      lahore_blank_store
    = (<[lahore_csv :=
           (headers :: [] ++ lahore_blank_time :: [])
           ++ [write_row (canonical "Lahore" at_0900_clear (DateTime 2025 1 1 9 0))]]>
         lahore_blank_store,
       Returned tt).
Proof.
  assert (lahore_blank_store !! lahore_csv
          = Some (headers :: [] ++ lahore_blank_time :: [])) as Hfile by reflexivity.
  assert (blank_key headers lahore_blank_time) as Hblank by (right; reflexivity).
  split; [exact Hfile|]. split; [exact Hblank|].
  apply (proj2 (proj2 (blank_rows_never_suppress disk_ok CLEAN_DIR lahore_blank_store
                         lahore_csv headers [] lahore_blank_time [] Hfile Hblank))).
  - reflexivity.
  - reflexivity.
  - vm_compute. intros H. discriminate H.
  - reflexivity.
Defined.

(** The scenario of the specification: an empty clean directory and Multan
    with points at 09:00 and 10:00.  The first run appends two rows, the
    second run leaves the file as it is. *)
Example transform_data_multan_scenario :
  clean_files (transform_data disk_ok "raw.json" (start_with multan_two_hours)).1
    !! multan_csv
  = Some [headers;
          ["Multan"; "2025-01-01"; "09:00 AM"; "14.2"; "71"; "Clear sky"; "6.1"];
          ["Multan"; "2025-01-01"; "10:00 AM"; "15.0"; "69"; "Mostly clear"; "7.4"]]
  ∧ clean_files (run_all disk_ok ["raw.json"; "raw.json"] (start_with multan_two_hours))
    = clean_files (run_all disk_ok ["raw.json"] (start_with multan_two_hours)).
Proof. split; vm_compute; reflexivity. Qed.

(** The header invariant is what makes a file a dataset.  A zero-length file
    at a dataset path is not one: [append_rows] finds the file and writes no
    header, so [csv.DictReader] takes the first appended row for the field
    names and a second run appends the later rows again. *)
Remark headerless_file_is_not_a_dataset :
  let st := TransformState {[ "raw.json" := multan_two_hours ]} {[ multan_csv := [] ]} [] in
  ¬ dataset_store_ok (clean_files st)
  ∧ clean_files (run_all disk_ok ["raw.json"; "raw.json"] st) !! multan_csv
    = Some [["Multan"; "2025-01-01"; "09:00 AM"; "14.2"; "71"; "Clear sky"; "6.1"];
            ["Multan"; "2025-01-01"; "10:00 AM"; "15.0"; "69"; "Mostly clear"; "7.4"];
            ["Multan"; "2025-01-01"; "09:00 AM"; "14.2"; "71"; "Clear sky"; "6.1"];
            ["Multan"; "2025-01-01"; "10:00 AM"; "15.0"; "69"; "Mostly clear"; "7.4"]].
Proof.
  split.
  - intros Hok. specialize (Hok multan_csv [] eq_refl). discriminate Hok.
  - vm_compute. reflexivity.
Qed.

End ReconcilerWitnesses.

(** ** Further properties of the Fetcher *)

Section FetcherMore.
Import Extract FetcherSpec.







Lemma fetch_city_name env name lat lon cf :
  fetch_city env name lat lon = Returned cf → city cf = Some name.
Proof.
  unfold fetch_city. destruct (requests_get env lat lon) as [h|]; [|done].
  destruct (decode_points _ _); [|done]. by intros [= <-].
Qed.

Lemma fetch_all_elem env cities cf :
  cf ∈ fetch_all env cities
  ↔ ∃ name lat lon, (name, (lat, lon)) ∈ cities
                    ∧ fetch_city env name lat lon = Returned cf.
Proof.
  induction cities as [|[name [lat lon]] rest IH]; cbn [fetch_all].
  - split; [by intros ?%elem_of_nil|]. by intros (? & ? & ? & ?%elem_of_nil & _).
  - destruct (fetch_city env name lat lon) as [cd|e] eqn:Hc.
    + rewrite elem_of_cons, IH. split.
      * intros [->|(n & la & lo & Hin & Hf)].
        -- exists name, lat, lon. split; [apply elem_of_cons; by left | done].
        -- exists n, la, lo. split; [apply elem_of_cons; by right | done].
      * intros (n & la & lo & [Heq|Hin]%elem_of_cons & Hf).
        -- injection Heq as -> -> ->. rewrite Hc in Hf. left. by injection Hf.
        -- right. by exists n, la, lo.
    + rewrite IH. split.
      * intros (n & la & lo & Hin & Hf).
        exists n, la, lo. split; [apply elem_of_cons; by right | done].
      * intros (n & la & lo & [Heq|Hin]%elem_of_cons & Hf).
        -- injection Heq as -> -> ->. by rewrite Hc in Hf.
        -- by exists n, la, lo.
Qed.

Lemma fetch_all_names_sublist env cities :
  (city <$> fetch_all env cities) `sublist_of` (Some ∘ fst <$> cities).
Proof.
  induction cities as [|[name [lat lon]] rest IH]; cbn [fetch_all]; [done|].
  destruct (fetch_city env name lat lon) as [cd|e] eqn:Hc.
  - cbn. rewrite (fetch_city_name _ _ _ _ _ Hc). by apply sublist_skip.
  - cbn. by apply sublist_cons.
Qed.

Lemma tracked_files_distinct :
  NoDup (Transform.csv_file_of Transform.CLEAN_DIR ∘ fst <$> PUNJAB_CITIES).
Proof. apply (bool_decide_unpack _). vm_compute. exact I. Qed.

(** X2. The snapshot of a fetch cycle, whatever the requests do: it holds
    the decoded cities and nothing else, in the order of [PUNJAB_CITIES], at
    most one entry per tracked city and each with its name; so no two of its
    entries are reconciled into the same dataset file. *)
Theorem fetch_all_snapshot env :
  (∀ cf, cf ∈ fetch_all env PUNJAB_CITIES
         ↔ ∃ name lat lon, (name, (lat, lon)) ∈ PUNJAB_CITIES
                           ∧ fetch_city env name lat lon = Returned cf)
  ∧ (city <$> fetch_all env PUNJAB_CITIES) `sublist_of` (Some ∘ fst <$> PUNJAB_CITIES)
  ∧ length (fetch_all env PUNJAB_CITIES) ≤ 15
  ∧ NoDup (city <$> fetch_all env PUNJAB_CITIES)
  ∧ NoDup ((λ cf, Transform.csv_file_of Transform.CLEAN_DIR <$> city cf)
           <$> fetch_all env PUNJAB_CITIES).
Proof.
  pose proof (fetch_all_names_sublist env PUNJAB_CITIES) as Hsub.
  split_and!.
  - intros cf. apply fetch_all_elem.
  - exact Hsub.
  - apply sublist_length in Hsub. rewrite !length_fmap in Hsub. exact Hsub.
  - eapply sublist_NoDup; [|exact Hsub].
    apply (NoDup_fmap_1 (fmap (Transform.csv_file_of Transform.CLEAN_DIR))).
    rewrite <- list_fmap_compose.
    exact (NoDup_fmap_2 Some _ tracked_files_distinct).
  - change (NoDup (fmap (Transform.csv_file_of Transform.CLEAN_DIR) ∘ city
                   <$> fetch_all env PUNJAB_CITIES)).
    rewrite (list_fmap_compose city (fmap (Transform.csv_file_of Transform.CLEAN_DIR))).
    eapply sublist_NoDup; [|apply fmap_sublist, Hsub].
    rewrite <- list_fmap_compose.
    exact (NoDup_fmap_2 Some _ tracked_files_distinct).
Qed.

Lemma interpret_weather_code_known code :
  code ∈ known_codes → interpret_weather_code code ≠ unknown_code_label code.
Proof.
  unfold known_codes. rewrite !elem_of_cons.
  intros H. repeat (destruct H as [->|H]; [vm_compute; discriminate|]).
  by apply elem_of_nil in H.
Qed.

Lemma interpret_weather_code_unknown code :
  code ∉ known_codes → interpret_weather_code code = unknown_code_label code.
Proof.
  unfold known_codes. rewrite !not_elem_of_cons. intros H.
  unfold interpret_weather_code, unknown_code_label.
  repeat match goal with
    | |- context [Z.eqb ?a ?b] => destruct (Z.eqb_spec a b); try lia
    | |- context [Z.leb ?a ?b] => destruct (Z.leb_spec a b); try lia
    end; reflexivity.
Qed.

(** X3. The codes [interpret_weather_code] knows.  A code gets the fallback
    label exactly when it is none of 0-3, 45, 48, 51-57, 61-67, 80-82, 85, 86
    and 95-99; every other integer, negative codes and the snow codes 71-77
    among them, is reported as "Conditions Varies (WMO Code n)". *)
Theorem interpret_weather_code_fallback code :
  (interpret_weather_code code = unknown_code_label code ↔ code ∉ known_codes)
  ∧ ((code < 0 ∨ 71 ≤ code ≤ 77 ∨ 99 < code)%Z →
     interpret_weather_code code = unknown_code_label code).
Proof.
  split.
  - split.
    + intros Heq Hin. by apply (interpret_weather_code_known code Hin).
    + apply interpret_weather_code_unknown.
  - intros Hrange. apply interpret_weather_code_unknown.
    unfold known_codes. rewrite !not_elem_of_cons. split_and!; try lia.
    apply not_elem_of_nil.
Qed.

Lemma interpret_weather_code_fallback_witness :
  interpret_weather_code 73 = unknown_code_label 73.
Proof.
  apply (proj2 (interpret_weather_code_fallback 73)). right. left. lia.
Defined.

End FetcherMore.

(** ** Timestamps *)

Section Timestamps.
Import Transform ReconcilerSpec TimestampSpec.

Lemma number_of_lt s acc n :
  number_of s acc = Some n → n < (acc + 1) * 10 ^ String.length s.
Proof.
  revert acc. induction s as [|c s IH]; intros acc; cbn [number_of String.length].
  - intros [= <-]. cbn. lia.
  - unfold digit_of. destruct (_ && _) eqn:Hd; [|done].
    intros Hn. apply IH in Hn. apply andb_true_iff in Hd as [_ Hd%Nat.leb_le].
    rewrite Nat.pow_succ_r'. nia.
Qed.

Lemma within_Some lo hi n m : within lo hi n = Some m → m = n ∧ lo ≤ n ≤ hi.
Proof.
  unfold within. destruct (_ && _) eqn:H; [|done]. intros [= <-].
  apply andb_true_iff in H as [?%Nat.leb_le ?%Nat.leb_le]. lia.
Qed.

Lemma digits_upto_within w lo hi s n :
  digits_upto w s ≫= within lo hi = Some n → lo ≤ n ≤ hi.
Proof.
  destruct (digits_upto w s) as [k|]; [|done]. cbn.
  intros [-> ?]%within_Some. done.
Qed.

Lemma field_d_range s n : field_d s = Some n → 1 ≤ n ≤ 31.
Proof.
  unfold field_d. intros H.
  assert ((∃ c, digit_of c ≫= within 1 9 = Some n)
          ∨ digits_upto 2 s ≫= within 1 31 = Some n) as [[c Hc]|Hs].
  { destruct s as [|a [|b [|c s3]]].
    - by right.
    - right. by destruct a as [[] [] [] [] [] [] [] []].
    - destruct (decide (a = " "%char)) as [->|Hne]; [left; by exists b|].
      right. by destruct a as [[] [] [] [] [] [] [] []].
    - right. by destruct a as [[] [] [] [] [] [] [] []]. }
  - destruct (digit_of c) as [k|]; [|done]. cbn in Hc.
    apply within_Some in Hc as [-> ?]. lia.
  - by apply digits_upto_within in Hs.
Qed.

Lemma strptime_range s dt : strptime s = Some dt → valid_datetime dt.
Proof.
  unfold strptime. intros H.
  destruct (split_at _ s) as [[sY r1]|]; [|done]. cbn [mbind option_bind] in H.
  destruct (split_at _ r1) as [[sm r2]|]; [|done]. cbn [mbind option_bind] in H.
  destruct (split_at _ r2) as [[sd r3]|]; [|done]. cbn [mbind option_bind] in H.
  destruct (split_at _ r3) as [[sH sM]|]; [|done]. cbn [mbind option_bind] in H.
  destruct (field_Y sY) as [y|] eqn:HY; [|done]. cbn [mbind option_bind] in H.
  destruct (field_m sm) as [m|] eqn:Hm; [|done]. cbn [mbind option_bind] in H.
  destruct (field_d sd) as [d|] eqn:Hd; [|done]. cbn [mbind option_bind] in H.
  destruct (field_H sH) as [hh|] eqn:HH; [|done]. cbn [mbind option_bind] in H.
  destruct (field_M sM) as [mm|] eqn:HM; [|done]. cbn [mbind option_bind] in H.
  destruct (_ && _) eqn:Hchk; [|done]. injection H as <-.
  apply andb_true_iff in Hchk as [Hy%Nat.leb_le Hday%Nat.leb_le].
  unfold field_Y in HY. destruct (String.length sY =? 4)%nat eqn:Hlen; [|done].
  apply Nat.eqb_eq in Hlen. apply number_of_lt in HY. rewrite Hlen in HY.
  apply digits_upto_within in Hm. apply field_d_range in Hd.
  apply digits_upto_within in HH. apply digits_upto_within in HM.
  unfold valid_datetime. cbn [year month day hour minute]. lia.
Qed.

(** X4. [strptime] yields real calendar dates only: whenever a timestamp
    parses, the year is between 1 and 9999, the month between 1 and 12, the
    day exists in that month of that year (29 February in leap years only),
    the hour is at most 23 and the minute at most 59. *)
Theorem strptime_valid s dt : strptime s = Some dt → valid_datetime dt.
Proof. apply strptime_range. Qed.

Lemma strptime_valid_witness :
  strptime "2024-02-29T23:59" = Some (DateTime 2024 2 29 23 59)
  ∧ valid_datetime (DateTime 2024 2 29 23 59).
Proof.
  split; [reflexivity|].
  apply (strptime_valid "2024-02-29T23:59"). reflexivity.
Defined.

(** *** Zero-padded fields, checked value by value *)

Lemma forallb_below (P : nat → bool) N :
  forallb P (seq 0 N) = true → ∀ n, n < N → P n = true.
Proof.
  intros H n Hn. apply (proj1 (forallb_forall P (seq 0 N)) H).
  apply in_seq. lia.
Qed.

Lemma two_digit_fields n : n < 100 → two_digit_field_ok n = true.
Proof. apply forallb_below. vm_compute. reflexivity. Qed.

Lemma hours_are_distinct a b : a < 24 → b < 24 → hours_distinct a b = true.
Proof.
  intros Ha Hb.
  assert (forallb (λ x, forallb (hours_distinct x) (seq 0 24)) (seq 0 24) = true) as H
    by (vm_compute; reflexivity).
  apply (forallb_below _ 24 (forallb_below _ 24 H a Ha) b Hb).
Qed.

Lemma two_digit_facts n :
  n < 100 →
  str_forall is_digit (pad 2 n) = true ∧ String.length (pad 2 n) = 2
  ∧ number_of (pad 2 n) 0 = Some n
  ∧ field_m (pad 2 n) = within 1 12 n ∧ field_d (pad 2 n) = within 1 31 n
  ∧ field_H (pad 2 n) = within 0 23 n ∧ field_M (pad 2 n) = within 0 59 n.
Proof.
  intros Hn. pose proof (two_digit_fields n Hn) as H. unfold two_digit_field_ok in H.
  repeat (apply andb_true_iff in H as [H ?]).
  repeat match goal with
    | H : bool_decide _ = true |- _ => apply bool_decide_eq_true in H
    | H : (_ =? _)%nat = true |- _ => apply Nat.eqb_eq in H
    end.
  done.
Qed.

(** *** Zero-padded fields of any width *)

Lemma number_of_app a b acc :
  number_of (a +:+ b) acc = number_of a acc ≫= number_of b.
Proof.
  revert acc. induction a as [|c a IH]; intros acc; [done|].
  change (String c a +:+ b) with (String c (a +:+ b)). cbn [number_of].
  destruct (digit_of c); [apply IH|done].
Qed.

Lemma str_forall_app P a b :
  str_forall P (a +:+ b) = str_forall P a && str_forall P b.
Proof.
  induction a as [|c a IH]; [done|].
  change (String c a +:+ b) with (String c (a +:+ b)). cbn [str_forall].
  by rewrite IH, andb_assoc.
Qed.

Lemma length_append a b :
  String.length (a +:+ b) = String.length a + String.length b.
Proof.
  induction a as [|c a IH]; [done|].
  change (String c a +:+ b) with (String c (a +:+ b)). cbn [String.length].
  by rewrite IH.
Qed.

Lemma append_cons_assoc a c s : (a +:+ String c "") +:+ s = a +:+ String c s.
Proof.
  induction a as [|x a IH]; [done|].
  change (String x a +:+ String c "") with (String x (a +:+ String c "")).
  change (String x (a +:+ String c "") +:+ s)
    with (String x ((a +:+ String c "") +:+ s)).
  change (String x a +:+ String c s) with (String x (a +:+ String c s)).
  by rewrite IH.
Qed.

Lemma digit_of_pretty_N_char d :
  (d < 10)%N → digit_of (pretty_N_char d) = Some (N.to_nat d).
Proof.
  intros Hd.
  assert (d = 0 ∨ d = 1 ∨ d = 2 ∨ d = 3 ∨ d = 4 ∨ d = 5 ∨ d = 6 ∨ d = 7
          ∨ d = 8 ∨ d = 9)%N as H by lia.
  repeat (destruct H as [->|H]; [reflexivity|]). by subst d.
Qed.

(** The digits [pretty_N_go] puts in front of its accumulator. *)
Lemma pretty_N_go_digits x :
  ∃ ds, (∀ s, pretty_N_go x s = ds +:+ s)
    ∧ str_forall is_digit ds = true
    ∧ number_of ds 0 = Some (N.to_nat x)
    ∧ ∀ k, (x < 10 ^ N.of_nat k)%N → String.length ds ≤ k.
Proof.
  induction (N.lt_wf_0 x) as [x _ IH].
  destruct (decide (x = 0)%N) as [->|Hx].
  { exists "". split_and!; [done..|]. intros k _. cbn. lia. }
  assert (0 < x)%N as Hpos by lia.
  destruct (IH (x `div` 10)%N) as (ds & Hgo & Hdig & Hnum & Hlen).
  { apply N.div_lt; lia. }
  assert (x `mod` 10 < 10)%N as Hmod by (apply N.mod_lt; lia).
  pose proof (digit_of_pretty_N_char _ Hmod) as Hd.
  exists (ds +:+ String (pretty_N_char (x `mod` 10)) ""). split_and!.
  - intros s. by rewrite pretty_N_go_step, Hgo, append_cons_assoc.
  - rewrite str_forall_app, Hdig. cbn [str_forall]. unfold is_digit.
    by rewrite Hd.
  - rewrite number_of_app, Hnum. cbn [mbind option_bind number_of].
    rewrite Hd. f_equal.
    pose proof (N.div_mod x 10 ltac:(lia)). lia.
  - intros k Hk. rewrite length_append. cbn [String.length].
    destruct k as [|k]; [cbn in Hk; lia|].
    assert (String.length ds ≤ k); [|lia].
    apply Hlen. rewrite Nat2N.inj_succ, N.pow_succ_r' in Hk.
    apply N.Div0.div_lt_upper_bound. lia.
Qed.

Lemma zeros_digits k :
  str_forall is_digit (zeros k) = true ∧ String.length (zeros k) = k
  ∧ ∀ acc, number_of (zeros k) acc = Some (10 ^ k * acc).
Proof.
  induction k as [|k (IH1 & IH2 & IH3)]; [split_and!; [done..|intros; cbn; f_equal; lia]|].
  cbn [zeros str_forall String.length]. split_and!.
  - by rewrite IH1.
  - by rewrite IH2.
  - intros acc. cbn [number_of]. change (digit_of "0") with (Some 0).
    cbn match. rewrite IH3. f_equal. rewrite Nat.pow_succ_r'. lia.
Qed.

(** A number below [10 ^ width], zero-padded to [width] digits. *)
Lemma pad_digits width n :
  1 ≤ width → n < 10 ^ width →
  str_forall is_digit (pad width n) = true
  ∧ String.length (pad width n) = width
  ∧ number_of (pad width n) 0 = Some n.
Proof.
  intros Hw Hn.
  assert (∃ ds, pretty n = ds ∧ str_forall is_digit ds = true
            ∧ number_of ds 0 = Some n ∧ 1 ≤ String.length ds ≤ width)
    as (ds & Hp & Hdig & Hnum & Hlen).
  { unfold pretty, pretty_nat, pretty, pretty_N.
    destruct (decide (N.of_nat n = 0)%N) as [H0|H0].
    - exists "0". assert (n = 0) as -> by lia. split_and!; try done; cbn; lia.
    - destruct (pretty_N_go_digits (N.of_nat n)) as (ds & Hgo & Hdig & Hnum & Hlen).
      exists ds. rewrite Hgo, Nat2N.id in *. split_and!.
      + clear. induction ds as [|c ds IH]; [done|].
        change (String c ds +:+ "") with (String c (ds +:+ "")). by rewrite IH.
      + done.
      + done.
      + destruct ds; [cbn in Hnum; injection Hnum; lia|cbn; lia].
      + apply Hlen. change 10%N with (N.of_nat 10).
        rewrite <- Nat2N.inj_pow. lia. }
  unfold pad. rewrite Hp.
  destruct (zeros_digits (width - String.length ds)) as (Z1 & Z2 & Z3).
  rewrite str_forall_app, length_append, number_of_app, Z1, Z2, Z3, Hdig.
  split_and!; [done|lia|].
  rewrite Nat.mul_0_r. exact Hnum.
Qed.

Lemma year_facts n :
  n < 10 ^ 4 →
  str_forall is_digit (pad 4 n) = true ∧ String.length (pad 4 n) = 4
  ∧ field_Y (pad 4 n) = Some n.
Proof.
  intros Hn. destruct (pad_digits 4 n ltac:(lia) Hn) as (Hdig & Hlen & Hnum).
  split_and!; [done..|]. unfold field_Y. by rewrite Hlen.
Qed.

Lemma within_in lo hi n : lo ≤ n ≤ hi → within lo hi n = Some n.
Proof.
  intros [Hlo Hhi]. unfold within.
  by rewrite (proj2 (Nat.leb_le lo n) Hlo), (proj2 (Nat.leb_le n hi) Hhi).
Qed.

Lemma split_at_app sep a c b :
  str_forall (λ x, negb (sep x)) a = true → sep c = true →
  split_at sep (a +:+ String c b) = Some (a, b).
Proof.
  intros Ha Hc. induction a as [|x a IH].
  - change ("" +:+ String c b) with (String c b). cbn. by rewrite Hc.
  - change (String x a +:+ String c b) with (String x (a +:+ String c b)).
    cbn in Ha. apply andb_true_iff in Ha as [Hx Ha].
    apply negb_true_iff in Hx. cbn [split_at]. rewrite Hx, (IH Ha). done.
Qed.

Lemma split_at_field sep a c b :
  str_forall (λ x, negb (sep x)) a = true → sep c = true →
  split_at sep (a +:+ String c "" +:+ b) = Some (a, b).
Proof. change (String c "" +:+ b) with (String c b). apply split_at_app. Qed.

Lemma str_forall_impl (P Q : ascii → bool) s :
  (∀ c, P c = true → Q c = true) → str_forall P s = true → str_forall Q s = true.
Proof.
  intros HPQ. induction s as [|c s IH]; cbn; [done|].
  intros [Hc Hs]%andb_true_iff. by rewrite (HPQ c Hc), (IH Hs).
Qed.

Lemma digit_is_no_separator c :
  is_digit c = true →
  negb (is_char "-" c) = true
  ∧ negb (is_char "T" c || is_char "t" c) = true
  ∧ negb (is_char ":" c) = true.
Proof.
  destruct c as [[] [] [] [] [] [] [] []]; vm_compute;
    try (intros H; discriminate H); done.
Qed.

Lemma append_inj_length a a' b b' :
  String.length a = String.length a' → a +:+ b = a' +:+ b' → a = a' ∧ b = b'.
Proof.
  revert a'. induction a as [|x a IH]; intros [|x' a']; try done.
  intros [= Hlen].
    change (String x a +:+ b) with (String x (a +:+ b)).
    change (String x' a' +:+ b') with (String x' (a' +:+ b')).
    intros [= -> Heq]. destruct (IH _ Hlen Heq) as [-> ->]. done.
Qed.

Lemma pad2_inj n m : n < 100 → m < 100 → pad 2 n = pad 2 m → n = m.
Proof.
  intros Hn Hm Heq.
  destruct (two_digit_facts n Hn) as (_ & _ & Hnn & _).
  destruct (two_digit_facts m Hm) as (_ & _ & Hmm & _).
  rewrite Heq, Hmm in Hnn. by injection Hnn.
Qed.

Lemma pad4_inj n m : n < 10 ^ 4 → m < 10 ^ 4 → pad 4 n = pad 4 m → n = m.
Proof.
  intros Hn Hm Heq.
  destruct (year_facts n Hn) as (_ & _ & Hnn).
  destruct (year_facts m Hm) as (_ & _ & Hmm).
  rewrite Heq, Hmm in Hnn. by injection Hnn.
Qed.

Lemma days_in_month_le y m : days_in_month y m ≤ 31.
Proof.
  unfold days_in_month.
  repeat (destruct m as [|m]; [try lia; destruct (is_leap y); lia|]). lia.
Qed.

Lemma strptime_of_isoformat dt : valid_datetime dt → strptime (isoformat dt) = Some dt.
Proof.
  destruct dt as [y m d hh mm]. unfold valid_datetime. cbn [year month day hour minute].
  intros (Hy & Hm & Hd & Hh & Hmm).
  pose proof (days_in_month_le y m) as Hdim.
  destruct (year_facts y ltac:(lia)) as (Ydig & _ & HY).
  destruct (two_digit_facts m ltac:(lia)) as (mdig & _ & _ & Hfm & _).
  destruct (two_digit_facts d ltac:(lia)) as (ddig & _ & _ & _ & Hfd & _).
  destruct (two_digit_facts hh ltac:(lia)) as (_ & _ & _ & _ & _ & HfH & _).
  destruct (two_digit_facts mm ltac:(lia)) as (_ & _ & _ & _ & _ & _ & HfM).
  unfold strptime, isoformat. cbn [year month day hour minute].
  rewrite (split_at_field (is_char "-") (pad 4 y) "-");
    [|by eapply str_forall_impl; [apply digit_is_no_separator | exact Ydig] | done].
  cbn [mbind option_bind].
  rewrite (split_at_field (is_char "-") (pad 2 m) "-");
    [|by eapply str_forall_impl; [apply digit_is_no_separator | exact mdig] | done].
  cbn [mbind option_bind].
  rewrite (split_at_field (λ c, is_char "T" c || is_char "t" c) (pad 2 d) "T");
    [|by eapply str_forall_impl; [apply digit_is_no_separator | exact ddig] | done].
  cbn [mbind option_bind].
  destruct (two_digit_facts hh ltac:(lia)) as (Hdig & _).
  rewrite (split_at_field (is_char ":") (pad 2 hh) ":");
    [|by eapply str_forall_impl; [apply digit_is_no_separator | exact Hdig] | done].
  cbn [mbind option_bind].
  rewrite HY, Hfm, Hfd, HfH, HfM.
  rewrite !within_in by lia. cbn [mbind option_bind].
  rewrite (proj2 (Nat.leb_le 1 y)) by lia.
  rewrite (proj2 (Nat.leb_le d (days_in_month y m))) by lia. done.
Qed.

(** X5. Every valid date and time, written with zero-padded fields as
    [YYYY-MM-DDTHH:MM], is parsed by [strptime] back to the same fields: the
    timestamps of the weather source are never dropped as unparseable. *)
Theorem strptime_isoformat dt : valid_datetime dt → strptime (isoformat dt) = Some dt.
Proof. apply strptime_of_isoformat. Qed.

Lemma strptime_isoformat_witness :
  valid_datetime (DateTime 2025 1 1 9 0)
  ∧ strptime (isoformat (DateTime 2025 1 1 9 0)) = Some (DateTime 2025 1 1 9 0).
Proof.
  assert (valid_datetime (DateTime 2025 1 1 9 0)) as Hv.
  { unfold valid_datetime. cbn. lia. }
  split; [exact Hv|]. apply (strptime_isoformat _ Hv).
Defined.

(** *** The dedup key *)

Lemma strftime_date_inj d1 d2 :
  valid_datetime d1 → valid_datetime d2 →
  strftime_date d1 = strftime_date d2 →
  year d1 = year d2 ∧ month d1 = month d2 ∧ day d1 = day d2.
Proof.
  unfold valid_datetime, strftime_date.
  intros (Hy1 & Hm1 & Hd1 & _) (Hy2 & Hm2 & Hd2 & _) Heq.
  pose proof (days_in_month_le (year d1) (month d1)).
  pose proof (days_in_month_le (year d2) (month d2)).
  destruct (year_facts (year d1) ltac:(lia)) as (_ & Ly1 & _).
  destruct (year_facts (year d2) ltac:(lia)) as (_ & Ly2 & _).
  destruct (two_digit_facts (month d1) ltac:(lia)) as (_ & Lm1 & _).
  destruct (two_digit_facts (month d2) ltac:(lia)) as (_ & Lm2 & _).
  apply append_inj_length in Heq as [Hy Heq]; [|by rewrite Ly1, Ly2].
  change ("-" +:+ ?s) with (String "-" s) in Heq. injection Heq as Heq.
  apply append_inj_length in Heq as [Hm Heq]; [|by rewrite Lm1, Lm2].
  change ("-" +:+ ?s) with (String "-" s) in Heq. injection Heq as Hd.
  split_and!.
  - apply pad4_inj in Hy; lia.
  - apply pad2_inj in Hm; lia.
  - apply pad2_inj in Hd; lia.
Qed.

Lemma hour12_le h : hour12 h ≤ 12.
Proof.
  unfold hour12. destruct (Nat.eqb_spec (h mod 12) 0); [lia|].
  pose proof (Nat.mod_upper_bound h 12). lia.
Qed.

Lemma strftime_time_inj d1 d2 :
  valid_datetime d1 → valid_datetime d2 →
  strftime_time d1 = strftime_time d2 →
  hour d1 = hour d2 ∧ minute d1 = minute d2.
Proof.
  unfold valid_datetime, strftime_time.
  intros (_ & _ & _ & Hh1 & Hmi1) (_ & _ & _ & Hh2 & Hmi2) Heq.
  fold (hour12 (hour d1)) in Heq. fold (hour12 (hour d2)) in Heq.
  pose proof (hour12_le (hour d1)). pose proof (hour12_le (hour d2)).
  destruct (two_digit_facts (hour12 (hour d1)) ltac:(lia)) as (_ & Lh1 & _).
  destruct (two_digit_facts (hour12 (hour d2)) ltac:(lia)) as (_ & Lh2 & _).
  destruct (two_digit_facts (minute d1) ltac:(lia)) as (_ & Lm1 & _).
  destruct (two_digit_facts (minute d2) ltac:(lia)) as (_ & Lm2 & _).
  apply append_inj_length in Heq as [Hh Heq]; [|by rewrite Lh1, Lh2].
  change (":" +:+ ?s) with (String ":" s) in Heq. injection Heq as Heq.
  apply append_inj_length in Heq as [Hm Heq]; [|by rewrite Lm1, Lm2].
  apply pad2_inj in Hh; [|lia..]. apply pad2_inj in Hm; [|lia..].
  split; [|exact Hm].
  pose proof (hours_are_distinct (hour d1) (hour d2) ltac:(lia) ltac:(lia)) as Hdist.
  unfold hours_distinct in Hdist. rewrite Hh, Nat.eqb_refl in Hdist.
  assert ((hour d1 <? 12) = (hour d2 <? 12)) as Hampm.
  { destruct (hour d1 <? 12), (hour d2 <? 12); try done; discriminate Heq. }
  rewrite bool_decide_eq_true_2 in Hdist by exact Hampm.
  cbn in Hdist. by apply Nat.eqb_eq in Hdist.
Qed.

Lemma key_of_injective d1 d2 :
  valid_datetime d1 → valid_datetime d2 → key_of d1 = key_of d2 → d1 = d2.
Proof.
  intros Hv1 Hv2 [= Hdate Htime].
  destruct (strftime_date_inj d1 d2 Hv1 Hv2 Hdate) as (Hy & Hm & Hd).
  destruct (strftime_time_inj d1 d2 Hv1 Hv2 Htime) as (Hh & Hmi).
  destruct d1, d2. cbn in *. by subst.
Qed.

(** X6. The dedup key identifies the minute: two timestamps that both parse
    get the same (date, time-of-day) key exactly when they parse to the same
    date and time.  The 12-hour clock with AM/PM loses nothing, so two
    different hours of a day are never taken for duplicates of each other,
    while two spellings of one minute are. *)
Theorem key_of_strptime_inj s1 s2 d1 d2 :
  strptime s1 = Some d1 → strptime s2 = Some d2 →
  (key_of d1 = key_of d2 ↔ d1 = d2).
Proof.
  intros H1 H2. split; [|by intros ->].
  apply key_of_injective; by eapply strptime_range.
Qed.

Lemma key_of_strptime_inj_witness :
  strptime "2025-01-01T09:00" = Some (DateTime 2025 1 1 9 0)
  ∧ strptime "2025-1-1t9:0" = Some (DateTime 2025 1 1 9 0)
  ∧ (key_of (DateTime 2025 1 1 9 0) = key_of (DateTime 2025 1 1 9 0)
     ↔ DateTime 2025 1 1 9 0 = DateTime 2025 1 1 9 0).
Proof.
  split; [reflexivity|]. split; [reflexivity|].
  apply (key_of_strptime_inj "2025-01-01T09:00" "2025-1-1t9:0"); reflexivity.
Defined.

End Timestamps.

(** ** Further properties of the Reconciler *)

Section ReconcilerMore.
Import Transform ReconcilerSpec ReconcilerSpec2 ReconcilerExamples ReconcilerStores.

Variable env : transform_env.

Lemma foldl_add_key_elem_inv rows keys k :
  k ∈ foldl add_key keys rows →
  k ∈ keys ∨ ∃ row, row ∈ rows
                    ∧ forallb truthy (row_get row <$> DEDUP_FIELDS) = true
                    ∧ k = row_get row <$> DEDUP_FIELDS.
Proof.
  revert keys. induction rows as [|r rows IH]; intros keys; cbn [foldl]; [by left|].
  intros Hk. apply IH in Hk as [Hk|(row & Hin & Ht & ->)].
  - unfold add_key in Hk. destruct (forallb _ _) eqn:Ht; [|by left].
    apply elem_of_union in Hk as [Hk|Hk%elem_of_singleton]; [by left|].
    right. exists r. split; [apply elem_of_cons; by left | done].
  - right. exists row. split; [apply elem_of_cons; by right | done].
Qed.

Lemma dict_of_row_headers_key (r : list string) :
  row_get (dict_of_row headers r) <$> DEDUP_FIELDS = record_key r.
Proof.
  unfold DEDUP_FIELDS, record_key. cbn [fmap list_fmap].
  by rewrite headers_row_get_date, headers_row_get_time_ampm.
Qed.

Lemma file_keys_headers (rest : csv) k :
  k ∈ file_keys (headers :: rest)
  ↔ ∃ r d t, r ∈ rest ∧ r !! 1%nat = Some d ∧ r !! 2%nat = Some t
             ∧ d ≠ "" ∧ t ≠ "" ∧ k = [Some d; Some t].
Proof.
  unfold file_keys. cbn [DictReader]. split.
  - intros Hk. apply foldl_add_key_elem_inv in Hk as [Hk|(row & Hin & Ht & ->)];
      [by apply not_elem_of_empty in Hk|].
    apply list_elem_of_fmap in Hin as (r & -> & [_ Hr]%list_elem_of_filter).
    rewrite dict_of_row_headers_key in Ht |- *. unfold record_key in *.
    cbn [forallb] in Ht.
    apply andb_true_iff in Ht as [Hd Ht]. apply andb_true_iff in Ht as [Ht _].
    destruct (r !! 1%nat) as [d|] eqn:H1; [|done].
    destruct (r !! 2%nat) as [t|] eqn:H2; [|done].
    exists r, d, t. unfold truthy in Hd, Ht.
    apply negb_true_iff, bool_decide_eq_false in Hd.
    apply negb_true_iff, bool_decide_eq_false in Ht. by split_and!.
  - intros (r & d & t & Hin & Hd & Ht & Hdne & Htne & ->).
    assert ([Some d; Some t] = row_get (dict_of_row headers r) <$> DEDUP_FIELDS) as ->.
    { rewrite dict_of_row_headers_key. unfold record_key. by rewrite Hd, Ht. }
    apply foldl_add_key_elem.
    + apply list_elem_of_fmap_2, list_elem_of_filter. split; [|done].
      intros ->. done.
    + rewrite dict_of_row_headers_key. unfold record_key. rewrite Hd, Ht. cbn.
      by rewrite !bool_decide_eq_false_2.
Qed.

(** X7. What [load_existing_keys] reads from a dataset: a pair is in the key
    set exactly when some record after the header has that date in its second
    cell and that time in its third, both non-empty.  The cells of any other
    column, the city included, play no part, and a path with no file gives
    the empty set. *)
Theorem load_existing_keys_spec (files : gmap string csv) p (rest : csv) k :
  files !! p = Some (headers :: rest) →
  (k ∈ load_existing_keys files p
   ↔ ∃ r d t, r ∈ rest ∧ r !! 1%nat = Some d ∧ r !! 2%nat = Some t
              ∧ d ≠ "" ∧ t ≠ "" ∧ k = [Some d; Some t])
  ∧ ∀ q, files !! q = None → load_existing_keys files q = ∅.
Proof.
  intros Hp. split.
  - rewrite load_existing_keys_file_keys, Hp. apply file_keys_headers.
  - intros q Hq. unfold load_existing_keys. by rewrite Hq.
Qed.

(** X8. [append_rows] writes the header once.  Two appends to the same path
    that both succeed leave what a single append of all the rows leaves,
    whether or not the file existed; an append that cannot open the file
    changes nothing; and no append touches another path. *)
Theorem append_rows_compose p rows1 rows2 (files : gmap string csv) :
  (open_append env p = None →
   append_rows env p rows2 headers (append_rows env p rows1 headers files).1
   = append_rows env p (rows1 ++ rows2) headers files)
  ∧ (∀ e, open_append env p = Some e →
          append_rows env p rows1 headers files = (files, Raised e))
  ∧ (∀ q, q ≠ p → (append_rows env p rows1 headers files).1 !! q = files !! q).
Proof.
  unfold append_rows. split_and!.
  - intros ->. cbn [fst]. rewrite lookup_insert_eq, insert_insert_eq.
    by rewrite fmap_app, app_assoc.
  - by intros e ->.
  - intros q Hq. destruct (open_append env p); [done|]. cbn [fst].
    by rewrite lookup_insert_ne.
Qed.


(** *** Invariants of the datasets *)





(** *** The key set after a city *)



(** *** Persisted keys are never written again *)

Lemma appended_fresh_refl files : appended_fresh files files.
Proof.
  intros p f Hp. exists []. rewrite app_nil_r. split; [done|].
  intros r Hr. by apply elem_of_nil in Hr.
Qed.

Lemma appended_fresh_trans f1 f2 f3 :
  appended_fresh f1 f2 → appended_fresh f2 f3 → appended_fresh f1 f3.
Proof.
  intros H12 H23 p f Hp. destruct (H12 p f Hp) as (m1 & H1 & Hf1).
  destruct (H23 p _ H1) as (m2 & H2 & Hf2). exists (m1 ++ m2).
  rewrite app_assoc. split; [done|].
  intros r [Hr|Hr]%elem_of_app; [by apply Hf1|].
  destruct (Hf2 r Hr) as (d & t & Hd & Ht & Hfresh). exists d, t.
  split_and!; [done..|]. intros Hk. apply Hfresh.
  by apply (file_keys_app_subseteq f m1).
Qed.

Lemma reconcile_city_appended_fresh clean_dir cf files files' o :
  reconcile_city env clean_dir cf files = (files', o) → appended_fresh files files'.
Proof.
  intros H p f Hp.
  apply reconcile_city_inv in H as [->|(c & r0 & rows & _ & _ & Hrows & ->)];
    [by apply appended_fresh_refl|].
  destruct (decide (p = csv_file_of clean_dir c)) as [->|Hne].
  - rewrite lookup_insert_eq, Hp. cbn [default]. eexists. split; [done|].
    intros r Hr. apply list_elem_of_fmap in Hr as (row & -> & Hrow).
    rewrite <- Hrows in Hrow.
    apply new_rows_inv in Hrow as (rec & dt & _ & _ & Hfresh & ->).
    exists (strftime_date dt), (strftime_time dt). split_and!; [done..|].
    rewrite load_existing_keys_file_keys, Hp in Hfresh. exact Hfresh.
  - rewrite lookup_insert_ne by done. exists []. rewrite app_nil_r. split; [done|].
    intros r Hr. by apply elem_of_nil in Hr.
Qed.

Lemma reconcile_cities_appended_fresh clean_dir data files files' o :
  reconcile_cities env clean_dir data files = (files', o) → appended_fresh files files'.
Proof.
  revert files. induction data as [|cf rest IH]; intros files; cbn.
  - intros [= <- _]. apply appended_fresh_refl.
  - destruct (reconcile_city env clean_dir cf files) as [fA [u|e]] eqn:Hc.
    + intros H. eapply appended_fresh_trans; [|by eapply IH].
      by eapply reconcile_city_appended_fresh.
    + intros [= <- _]. by eapply reconcile_city_appended_fresh.
Qed.

(** X11. A run never writes a persisted key again: every record a run of
    [transform_data] appends to an existing dataset file carries a (date,
    time-of-day) pair that was not a key of the file as it stood before the
    run. *)
Theorem transform_data_appends_fresh_keys raw_file st p (f : csv) :
  clean_files st !! p = Some f →
  ∃ more : csv,
    clean_files (transform_data env raw_file st).1 !! p = Some (f ++ more)
    ∧ ∀ r, r ∈ more →
        ∃ d t, r !! 1%nat = Some d ∧ r !! 2%nat = Some t
               ∧ [Some d; Some t] ∉ file_keys f.
Proof.
  intros Hp. unfold transform_data.
  destruct (read_snapshot st raw_file) as [data|e].
  - destruct (reconcile_cities _ _ _ _) as [files' [u|e]] eqn:H; cbn;
      by apply (reconcile_cities_appended_fresh _ _ _ _ _ H p f Hp).
  - cbn. by apply (appended_fresh_refl (clean_files st) p f Hp).
Qed.


(** *** File names *)

Lemma normalise_char_idem (c : ascii) :
  lower_ascii (if Ascii.eqb (lower_ascii (if Ascii.eqb c " " then "_"%char else c)) " "
               then "_"%char
               else lower_ascii (if Ascii.eqb c " " then "_"%char else c))
  = lower_ascii (if Ascii.eqb c " " then "_"%char else c).
Proof. by destruct c as [[] [] [] [] [] [] [] []]. Qed.

Lemma normalise_idem c : normalise (normalise c) = normalise c.
Proof.
  unfold normalise, lower, replace.
  induction c as [|x c IH]; cbn [str_map]; [done|].
  by rewrite IH, normalise_char_idem.
Qed.

(** X12. The dataset file of a city is chosen by its name with spaces
    turned into underscores and ASCII letters lowered, and that form is a
    fixed point: a city named in that form already, or any two names that
    differ only in letter case or in spaces against underscores, are
    reconciled into one and the same file. *)
Theorem csv_file_of_normalise clean_dir c1 c2 :
  normalise c1 = normalise c2 →
  csv_file_of clean_dir c1 = csv_file_of clean_dir c2
  ∧ csv_file_of clean_dir (normalise c1) = csv_file_of clean_dir c2.
Proof.
  intros Heq. unfold csv_file_of. fold (normalise c1) (normalise c2).
  fold (normalise (normalise c1)). by rewrite normalise_idem, Heq.
Qed.

(** *** When a run returns *)




End ReconcilerMore.

(** ** From the Fetcher to the Reconciler *)

Section Pipeline.
Import Extract Transform ReconcilerSpec ReconcilerSpec2 Examples ReconcilerExamples
  ReconcilerStores.




End Pipeline.

Section ReconcilerMoreWitnesses.
Import Transform ReconcilerSpec ReconcilerSpec2 ReconcilerExamples ReconcilerStores.

Lemma load_existing_keys_spec_witness :
  clean_files multan_has_0900 !! multan_csv
  = Some (headers :: [["Multan"; "2025-01-01"; "09:00 AM"; "14.2"; "71"; "Clear sky"; "6.1"]])
  ∧ ([Some "2025-01-01"; Some "09:00 AM"]
       ∈ load_existing_keys (clean_files multan_has_0900) multan_csv
     ↔ ∃ r d t,
         r ∈ [["Multan"; "2025-01-01"; "09:00 AM"; "14.2"; "71"; "Clear sky"; "6.1"]]
         ∧ r !! 1%nat = Some d ∧ r !! 2%nat = Some t ∧ d ≠ "" ∧ t ≠ ""
         ∧ [Some "2025-01-01"; Some "09:00 AM"] = [Some d; Some t]).
Proof.
  assert (clean_files multan_has_0900 !! multan_csv
          = Some (headers :: [["Multan"; "2025-01-01"; "09:00 AM"; "14.2"; "71";
                               "Clear sky"; "6.1"]])) as Hfile by reflexivity.
  split; [exact Hfile|].
  apply (proj1 (load_existing_keys_spec (clean_files multan_has_0900) multan_csv _
                  [Some "2025-01-01"; Some "09:00 AM"] Hfile)).
Defined.

Lemma append_rows_compose_witness :
  open_append disk_ok lahore_csv = None
  ∧ append_rows disk_ok lahore_csv
      [canonical "Lahore" at_1000 (DateTime 2025 1 1 10 0)] headers
      (append_rows disk_ok lahore_csv
         [canonical "Lahore" at_0900_clear (DateTime 2025 1 1 9 0)] headers ∅).1
    = append_rows disk_ok lahore_csv
        ([canonical "Lahore" at_0900_clear (DateTime 2025 1 1 9 0)]
         ++ [canonical "Lahore" at_1000 (DateTime 2025 1 1 10 0)]) headers ∅.
Proof.
  split; [reflexivity|].
  apply (proj1 (append_rows_compose disk_ok lahore_csv _ _ ∅)). reflexivity.
Defined.




Lemma transform_data_appends_fresh_keys_witness :
  ∃ more : csv,
    clean_files (transform_data disk_ok "raw.json" multan_has_0900).1 !! multan_csv
    = Some ([headers;
             ["Multan"; "2025-01-01"; "09:00 AM"; "14.2"; "71"; "Clear sky"; "6.1"]]
            ++ more)
    ∧ ∀ r, r ∈ more →
        ∃ d t, r !! 1%nat = Some d ∧ r !! 2%nat = Some t
               ∧ [Some d; Some t]
                 ∉ file_keys
                     [headers;
                      ["Multan"; "2025-01-01"; "09:00 AM"; "14.2"; "71"; "Clear sky"; "6.1"]].
Proof.
  apply (transform_data_appends_fresh_keys disk_ok "raw.json" multan_has_0900 multan_csv).
  vm_compute. reflexivity.
Defined.

Lemma csv_file_of_normalise_witness :
  normalise "Rahim Yar Khan" = normalise "rahim_yar_khan"
  ∧ csv_file_of CLEAN_DIR "Rahim Yar Khan" = csv_file_of CLEAN_DIR "rahim_yar_khan".
Proof.
  assert (normalise "Rahim Yar Khan" = normalise "rahim_yar_khan") as H by reflexivity.
  split; [exact H|].
  apply (proj1 (csv_file_of_normalise CLEAN_DIR "Rahim Yar Khan" "rahim_yar_khan" H)).
Defined.


End ReconcilerMoreWitnesses.

(** ** Further properties of the Publisher *)

Section PublisherMore.
Import Load PublisherSpec PublisherSpec2 PublisherExamples.

(** X15. Configuration failures come before any I/O.  When the
    configuration does not resolve (no configuration file, a file that is not
    valid YAML, no bucket name, or incomplete AWS keys), [upload_to_s3]
    raises and leaves the bucket and the audit log exactly as they were: no
    upload is tried and no row is written, not even a FAILED one. *)
Theorem upload_to_s3_unconfigured env clean_path st :
  (∀ bucket prefix, ¬ configured env bucket prefix) →
  ∃ e, upload_to_s3 env clean_path st = (st, Raised e).
Proof.
  intros Hnot. unfold upload_to_s3.
  destruct (_read_config env CONFIG_PATH) as [cfg|e] eqn:Hcfg; [|by eexists].
  destruct (bucket_name (s3 cfg)) as [bucket|] eqn:Hb; cbn [truthy negb];
    [|by eexists].
  case_bool_decide as Hne; cbn [negb]; [by eexists|].
  destruct (_make_s3_client cfg) as [[]|e] eqn:Hclient; [|by eexists].
  destruct (Hnot bucket (default "clean/" (clean_prefix (s3 cfg)))).
  exists cfg. by split_and!.
Qed.

Lemma upload_to_s3_unconfigured_witness :
  ∃ e, upload_to_s3
         (LoadEnv (λ _, NoFile) (λ _, RegularFile) (λ _ _ _, None) "2025/01/01_093000")
         "clean/lahore_weather.csv" load_start
       = (load_start, Raised e).
Proof.
  apply upload_to_s3_unconfigured.
  intros bucket prefix (cfg & Hcfg & _). discriminate Hcfg.
Defined.

(** *** File names in object keys *)

Lemma basename_aux_app a b acc :
  basename_aux (a +:+ b) acc = basename_aux b (basename_aux a acc).
Proof.
  revert acc. induction a as [|c a IH]; intros acc.
  - done.
  - change (String c a +:+ b) with (String c (a +:+ b)). cbn [basename_aux].
    destruct (Ascii.eqb c "/"); apply IH.
Qed.

Lemma append_nil_r s : s +:+ "" = s.
Proof.
  induction s as [|x s IH]; [done|].
  change (String x s +:+ "") with (String x (s +:+ "")). by rewrite IH.
Qed.

Lemma append_snoc acc c name : (acc +:+ String c "") +:+ name = acc +:+ String c name.
Proof.
  induction acc as [|x acc IH]; [done|].
  change ((String x acc +:+ String c "") +:+ name)
    with (String x ((acc +:+ String c "") +:+ name)).
  change (String x acc +:+ String c name) with (String x (acc +:+ String c name)).
  by rewrite IH.
Qed.

Lemma basename_aux_slash_free name acc :
  slash_free name → basename_aux name acc = acc +:+ name.
Proof.
  unfold slash_free. revert acc. induction name as [|c name IH]; intros acc.
  - intros _. cbn [basename_aux]. by rewrite append_nil_r.
  - cbn [TimestampSpec.str_forall basename_aux].
    intros [Hc Hname]%andb_true_iff. apply negb_true_iff in Hc. rewrite Hc.
    by rewrite (IH _ Hname), append_snoc.
Qed.

Lemma string_prefix_nil s : String.prefix "" s = true.
Proof. by destruct s. Qed.

Lemma prefix_slash_rev_app a acc :
  a ≠ "" →
  String.prefix "/" (String.rev_app a acc) = String.prefix "/" (String.rev_app a "").
Proof.
  revert acc. induction a as [|c a IH]; intros acc Hne; [done|].
  cbn [String.rev_app]. destruct (decide (a = "")) as [->|Ha].
  - cbn [String.rev_app String.prefix].
    destruct (ascii_dec "/" c); [|done]. by rewrite !string_prefix_nil.
  - by rewrite (IH (String c acc) Ha), (IH (String c "") Ha).
Qed.

Lemma endswith_slash_basename a acc :
  endswith a "/" = true → basename_aux a acc = "".
Proof.
  unfold endswith, String.rev. change (String.rev_app "/" "") with "/".
  revert acc. induction a as [|c a IH]; intros acc; [done|].
  cbn [String.rev_app basename_aux]. destruct (decide (a = "")) as [->|Ha].
  - cbn [String.rev_app String.prefix basename_aux].
    destruct (ascii_dec "/" c) as [<-|]; done.
  - rewrite (prefix_slash_rev_app a _ Ha). intros Hend.
    destruct (Ascii.eqb c "/"); by apply IH.
Qed.

(** X16. The object key keeps the file name: for a directory path and an
    entry name without a slash, [os.path.basename] of their join is the name
    again, so the key under which a listed file is uploaded is the prefix,
    the upload timestamp, an underscore and that file's own name. *)
Theorem basename_path_join env prefix dir name :
  slash_free name →
  basename (path_join dir name) = name
  ∧ key_for env prefix (path_join dir name) = prefix +:+ upload_now env +:+ "_" +:+ name.
Proof.
  intros Hname.
  assert (basename (path_join dir name) = name) as Hbase.
  { unfold basename, path_join. case_bool_decide as Hdir.
    - by rewrite basename_aux_slash_free.
    - destruct (endswith dir "/") eqn:Hend.
      + rewrite basename_aux_app, (endswith_slash_basename dir "" Hend).
        by rewrite basename_aux_slash_free.
      + rewrite basename_aux_app. change ("/" +:+ name) with (String "/" name).
        cbn [basename_aux]. change (Ascii.eqb "/" "/") with true. cbn iota.
        by rewrite basename_aux_slash_free. }
  split; [exact Hbase|]. unfold key_for. by rewrite Hbase.
Qed.

Lemma basename_path_join_witness :
  slash_free "lahore_weather.csv"
  ∧ basename (path_join "clean" "lahore_weather.csv") = "lahore_weather.csv".
Proof.
  assert (slash_free "lahore_weather.csv") as H by reflexivity.
  split; [exact H|].
  apply (proj1 (basename_path_join (publisher None) "clean/" "clean"
                  "lahore_weather.csv" H)).
Defined.


(** *** What a run leaves behind *)

Lemma upload_loop_effects env bucket prefix paths uploaded st :
  ∃ sent tail,
    sent `prefix_of` paths
    ∧ (upload_loop env bucket prefix paths uploaded st).1
      = LoadState (uploaded_objects st ++ (object_for env bucket prefix <$> sent))
          (load_log st ++ (success_row <$> sent) ++ tail)
    ∧ at_most_one_failure tail
    ∧ ∀ uris, (upload_loop env bucket prefix paths uploaded st).2 = Returned uris →
        sent = paths ∧ tail = [] ∧ uris = uploaded ++ (uri_for env bucket prefix <$> paths).
Proof.
  revert uploaded st. induction paths as [|p rest IH]; intros uploaded st.
  - exists [], []. cbn. rewrite !app_nil_r. split_and!; [done|by destruct st|by left|].
    by intros uris [= <-].
  - destruct (upload_error env bucket prefix p) as [e|] eqn:He.
    + rewrite (upload_loop_raise env bucket prefix p rest uploaded st e He).
      exists [], (if caught e then [failure_row p e] else []). cbn [fst snd fmap list_fmap app].
      split_and!; [apply prefix_nil|by rewrite app_nil_r| |done].
      destruct (caught e); [right; by eexists | by left].
    + cbn [upload_loop]. rewrite _upload_one_file_spec, He.
      destruct (IH (uploaded ++ [uri_for env bucket prefix p])
                  (LoadState (uploaded_objects st ++ [object_for env bucket prefix p])
                     (log_etl_status "" p SUCCESS "" (load_log st))))
        as (sent & tail & Hsent & Hst & Htail & Hret).
      exists (p :: sent), tail. split_and!.
      * by apply prefix_cons.
      * rewrite Hst. cbn [uploaded_objects load_log fmap list_fmap].
        unfold log_etl_status. by rewrite <- !app_assoc.
      * exact Htail.
      * intros uris Huris. destruct (Hret uris Huris) as (-> & -> & ->).
        split_and!; [done..|]. cbn [fmap list_fmap]. by rewrite <- app_assoc.
Qed.

Lemma upload_to_s3_returns_all env clean_path st st' uris :
  upload_to_s3 env clean_path st = (st', Returned uris) →
  ∃ bucket prefix paths,
    configured env bucket prefix
    ∧ collect_paths env clean_path = Returned paths
    ∧ paths ≠ []
    ∧ uris = uri_for env bucket prefix <$> paths
    ∧ uploaded_objects st' = uploaded_objects st ++ (object_for env bucket prefix <$> paths)
    ∧ load_log st' = load_log st ++ (success_row <$> paths).
Proof.
  intros Hrun.
  assert (∃ bucket prefix, configured env bucket prefix) as (bucket & prefix & Hcfg).
  { revert Hrun. unfold upload_to_s3.
    destruct (_read_config env CONFIG_PATH) as [cfg|e] eqn:Hcfg; [|done].
    destruct (bucket_name (s3 cfg)) as [bucket|] eqn:Hb; cbn [truthy negb]; [|done].
    case_bool_decide as Hne; cbn [negb]; [done|].
    destruct (_make_s3_client cfg) as [[]|e] eqn:Hclient; [|done].
    intros _. exists bucket, (default "clean/" (clean_prefix (s3 cfg))), cfg.
    by split_and!. }
  exists bucket, prefix.
  rewrite (upload_to_s3_configured env bucket prefix clean_path st Hcfg) in Hrun.
  destruct (negb (exists_path env clean_path)); [done|].
  destruct (collect_paths env clean_path) as [[|p paths]|e]; [done| |done].
  exists (p :: paths).
  destruct (upload_loop_effects env bucket prefix (p :: paths) [] st)
    as (sent & tail & _ & Hst & _ & Hret).
  rewrite Hrun in Hst, Hret. cbn [fst snd] in Hst, Hret.
  destruct (Hret uris eq_refl) as (-> & -> & ->). rewrite Hst, app_nil_r.
  by split_and!.
Qed.

(** X17. What a returned list means.  [upload_to_s3] returns only when the
    configuration resolved, at least one file was selected and every selected
    file was uploaded: the list it returns is never empty and holds one URI
    per selected file, in order, the bucket has gained exactly the objects of
    those files and the audit log exactly one SUCCESS row for each. *)
Theorem upload_to_s3_returned env clean_path st st' uris :
  upload_to_s3 env clean_path st = (st', Returned uris) →
  ∃ bucket prefix paths,
    configured env bucket prefix
    ∧ collect_paths env clean_path = Returned paths
    ∧ paths ≠ []
    ∧ uris = uri_for env bucket prefix <$> paths
    ∧ uploaded_objects st' = uploaded_objects st ++ (object_for env bucket prefix <$> paths)
    ∧ load_log st' = load_log st ++ (success_row <$> paths).
Proof. apply upload_to_s3_returns_all. Qed.

Lemma upload_to_s3_returned_witness :
  ∃ bucket prefix paths,
    configured (publisher None) bucket prefix
    ∧ collect_paths (publisher None) "clean" = Returned paths
    ∧ paths ≠ []
    ∧ (upload_to_s3 (publisher None) "clean" load_start).2
      = Returned (uri_for (publisher None) bucket prefix <$> paths).
Proof.
  destruct (upload_to_s3 (publisher None) "clean" load_start) as [st' o] eqn:Hrun.
  assert (o = Returned ["s3://weather-bucket/clean/2025/01/01_093000_lahore_weather.csv";
                        "s3://weather-bucket/clean/2025/01/01_093000_multan_weather.csv";
                        "s3://weather-bucket/clean/2025/01/01_093000_OKARA_WEATHER.CSV"])
    as Ho.
  { change o with (st', o).2. rewrite <- Hrun. vm_compute. reflexivity. }
  rewrite Ho in Hrun.
  destruct (upload_to_s3_returned (publisher None) "clean" load_start st' _ Hrun)
    as (bucket & prefix & paths & Hcfg & Hpaths & Hne & Huris & _).
  exists bucket, prefix, paths. cbn [snd]. rewrite Ho, <- Huris. by split_and!.
Defined.

(** X18. The Publisher only adds.  Whatever the outcome of [upload_to_s3],
    the objects uploaded before and the audit rows written before are still
    there, unchanged and in place; each object the run adds is matched, in
    order, by one SUCCESS row naming its file, and these are followed by at
    most one more row, a FAILED one. *)
Theorem upload_to_s3_only_adds env clean_path st :
  ∃ objs tail,
    uploaded_objects (upload_to_s3 env clean_path st).1 = uploaded_objects st ++ objs
    ∧ load_log (upload_to_s3 env clean_path st).1
      = load_log st ++ (success_row ∘ obj_local_path <$> objs) ++ tail
    ∧ at_most_one_failure tail.
Proof.
  assert (∀ row, log_status row = FAILED →
            ∃ objs tail,
              uploaded_objects st = uploaded_objects st ++ objs
              ∧ load_log st ++ [row]
                = load_log st ++ (success_row ∘ obj_local_path <$> objs) ++ tail
              ∧ at_most_one_failure tail) as Hfail.
  { intros row Hrow. exists [], [row]. rewrite app_nil_r.
    split_and!; [done..|]. right. by exists row. }
  assert (∃ objs tail,
            uploaded_objects st = uploaded_objects st ++ objs
            ∧ load_log st = load_log st ++ (success_row ∘ obj_local_path <$> objs) ++ tail
            ∧ at_most_one_failure tail) as Hsame.
  { exists [], []. rewrite !app_nil_r. split_and!; [done..|]. by left. }
  unfold upload_to_s3.
  destruct (_read_config env CONFIG_PATH) as [cfg|e]; [|exact Hsame].
  destruct (negb (truthy (bucket_name (s3 cfg)))); [exact Hsame|].
  destruct (_make_s3_client cfg) as [[]|e]; [|exact Hsame].
  destruct (negb (exists_path env clean_path)); [by apply Hfail|].
  destruct (collect_paths env clean_path) as [[|p paths]|e];
    [by apply Hfail| |by apply Hfail].
  destruct (upload_loop_effects env (default "" (bucket_name (s3 cfg)))
              (default "clean/" (clean_prefix (s3 cfg))) (p :: paths) [] st)
    as (sent & tail & _ & -> & Htail & _).
  exists (object_for env (default "" (bucket_name (s3 cfg)))
            (default "clean/" (clean_prefix (s3 cfg))) <$> sent), tail.
  cbn [uploaded_objects load_log]. split_and!; [done| |done].
  by rewrite <- list_fmap_compose.
Qed.

End PublisherMore.

(** ** The DAG tasks *)

Section DagTasks.
Import Extract Transform Load ReconcilerSpec2 PublisherSpec Dag Examples
  ReconcilerExamples PublisherExamples.

Lemma raw_file_path_nonempty env : raw_file_path_of env ≠ "".
Proof.
  unfold raw_file_path_of, path_join.
  assert (bool_decide (RAW_DIR = "") = false) as -> by (vm_compute; reflexivity).
  assert (endswith RAW_DIR "/" = false) as -> by (vm_compute; reflexivity).
  intros H. apply append_empty in H as [H _]. vm_compute in H. discriminate H.
Qed.


Lemma exists_local_raw st p data :
  dag_raw st !! p = Some data → exists_local st p = true.
Proof.
  intros Hp. unfold exists_local. rewrite bool_decide_eq_true_2; [done|].
  by rewrite Hp.
Qed.



Lemma run_extract_cases env st :
  (json_dump (fetcher env) (raw_file_path_of (fetcher env)) = None →
   run_extract env st
   = (DagState
        (<[raw_file_path_of (fetcher env) := fetch_all (fetcher env) PUNJAB_CITIES]>
           (dag_raw st))
        (dag_clean st) (dag_bucket st)
        (dag_log st ++ [LogRow (raw_file_path_of (fetcher env)) "" SUCCESS "";
                        LogRow (raw_file_path_of (fetcher env)) "" SUCCESS ""])
        (<[("extract_weather_data", "raw_file") := XPath (raw_file_path_of (fetcher env))]>
           (xcom st)),
      Returned tt))
  ∧ (∀ e, json_dump (fetcher env) (raw_file_path_of (fetcher env)) = Some e →
          run_extract env st
          = (DagState (dag_raw st) (dag_clean st) (dag_bucket st)
               (dag_log st ++ [LogRow "" "" FAILED (str e); LogRow "" "" FAILED (str e)])
               (xcom st),
             Raised e)).
Proof.
  split.
  - intros Hdump. unfold run_extract, extract_data. rewrite Hdump.
    cbn [raw_files extract_log truthy].
    rewrite (bool_decide_eq_false_2 _ (raw_file_path_nonempty (fetcher env))).
    rewrite (exists_local_raw _ _ (fetch_all (fetcher env) PUNJAB_CITIES))
      by (cbn [dag_raw]; by rewrite lookup_insert_eq).
    cbn [negb orb]. unfold dag_log_status, xcom_push, log_etl_status.
    cbn [dag_raw dag_clean dag_bucket dag_log xcom default].
    by rewrite <- app_assoc.
  - intros e Hdump. unfold run_extract, extract_data. rewrite Hdump.
    cbn [raw_files extract_log]. unfold dag_log_status, log_etl_status.
    cbn [dag_raw dag_clean dag_bucket dag_log xcom default].
    by rewrite <- app_assoc.
Qed.

(** X19. The extract task.  [run_extract] raises exactly when
    [extract_data] does, that is when the snapshot cannot be written; its own
    check of the returned path never fails.  On success it stores the
    snapshot, publishes its path under the key [raw_file] and leaves two
    SUCCESS rows in the audit log, the stage's and the task's; on failure it
    leaves two FAILED rows and publishes nothing. *)
Theorem run_extract_spec env st :
  (json_dump (fetcher env) (raw_file_path_of (fetcher env)) = None →
   run_extract env st
   = (DagState
        (<[raw_file_path_of (fetcher env) := fetch_all (fetcher env) PUNJAB_CITIES]>
           (dag_raw st))
        (dag_clean st) (dag_bucket st)
        (dag_log st ++ [LogRow (raw_file_path_of (fetcher env)) "" SUCCESS "";
                        LogRow (raw_file_path_of (fetcher env)) "" SUCCESS ""])
        (<[("extract_weather_data", "raw_file") := XPath (raw_file_path_of (fetcher env))]>
           (xcom st)),
      Returned tt))
  ∧ (∀ e, json_dump (fetcher env) (raw_file_path_of (fetcher env)) = Some e →
          run_extract env st
          = (DagState (dag_raw st) (dag_clean st) (dag_bucket st)
               (dag_log st ++ [LogRow "" "" FAILED (str e); LogRow "" "" FAILED (str e)])
               (xcom st),
             Raised e)).
Proof. apply run_extract_cases. Qed.

Lemma run_extract_spec_witness :
  (run_extract (DagEnv lahore_down disk_ok (publisher None)) fresh).2 = Returned tt.
Proof.
  rewrite (proj1 (run_extract_spec (DagEnv lahore_down disk_ok (publisher None)) fresh));
    reflexivity.
Defined.

(** X20. The transform task without a snapshot.  When no [raw_file] was
    published by the extract task, or the published file is not on disk,
    [run_transform] raises a [ValueError] without calling [transform_data]:
    the snapshots, the datasets, the bucket and XCom stay as they were, and
    the audit log gains exactly one FAILED row. *)
Theorem run_transform_without_snapshot env st :
  (∀ raw_file, xcom_pull st "extract_weather_data" "raw_file" = Some raw_file →
               raw_file = "" ∨ exists_local st raw_file = false) →
  run_transform env st
  = (DagState (dag_raw st) (dag_clean st) (dag_bucket st)
       (dag_log st ++
          [LogRow (default "" (xcom_pull st "extract_weather_data" "raw_file")) ""
             FAILED "No raw_file path received from extract task."])
       (xcom st),
     Raised (ValueError "No raw_file path received from extract task.")).
Proof.
  intros Hmissing. unfold run_transform.
  assert (negb (truthy (xcom_pull st "extract_weather_data" "raw_file"))
          || negb (exists_local st (default "" (xcom_pull st "extract_weather_data" "raw_file")))
          = true) as ->; [|done].
  destruct (xcom_pull st "extract_weather_data" "raw_file") as [raw|]; [|done].
  destruct (Hmissing raw eq_refl) as [->|Hex]; [done|].
  change (default "" (Some raw)) with raw. rewrite Hex. by rewrite orb_true_r.
Qed.

Lemma run_transform_without_snapshot_witness :
  (run_transform (DagEnv lahore_down disk_ok (publisher None)) fresh).2
  = Raised (ValueError "No raw_file path received from extract task.").
Proof.
  rewrite (run_transform_without_snapshot (DagEnv lahore_down disk_ok (publisher None)) fresh).
  - reflexivity.
  - intros raw_file Hpull. discriminate Hpull.
Defined.



Lemma dag_log_status_last raw clean s msg st :
  dag_log (dag_log_status raw clean s msg st)
  = dag_log st ++ [LogRow (default "" raw) (default "" clean) s msg].
Proof. done. Qed.

(** X22. The last audit row of a task tells how it ended.  For each of the
    three tasks, a task that raises has just written a FAILED row carrying the
    text of the exception, and a task that returns has just written a SUCCESS
    row.  This holds in particular for the configuration failures of
    [upload_to_s3], which the stage itself does not log. *)
Theorem dag_task_outcome_logged env st :
  ∀ task, task ∈ [run_extract; run_transform; run_load] →
    (∀ e, (task env st).2 = Raised e →
          ∃ rows raw clean,
            dag_log (task env st).1 = rows ++ [LogRow raw clean FAILED (str e)])
    ∧ ((task env st).2 = Returned tt →
       ∃ rows raw clean,
         dag_log (task env st).1 = rows ++ [LogRow raw clean SUCCESS ""]).
Proof.
  intros task Htask. rewrite !elem_of_cons in Htask.
  destruct Htask as [->|[->|[->|Hnil]]]; [| | |by apply elem_of_nil in Hnil].
  - unfold run_extract.
    destruct (extract_data (fetcher env) _) as [est [raw_file|e']].
    + destruct (negb _ || negb _); cbn [fst snd]; split.
      * intros e [= <-]. rewrite dag_log_status_last. by eexists _, _, _.
      * done.
      * done.
      * intros _. rewrite dag_log_status_last. by eexists _, _, _.
    + cbn [fst snd]. split; [|done].
      intros e [= <-]. rewrite dag_log_status_last. by eexists _, _, _.
  - unfold run_transform.
    destruct (negb _ || negb _); cbn [fst snd].
    { split; [|done]. intros e [= <-]. rewrite dag_log_status_last. by eexists _, _, _. }
    destruct (transform_data (reconciler env) _ _) as [tst [clean_file|e']].
    + destruct (negb _ || negb _); cbn [fst snd]; split.
      * intros e [= <-]. rewrite dag_log_status_last. by eexists _, _, _.
      * done.
      * done.
      * intros _. rewrite dag_log_status_last. by eexists _, _, _.
    + cbn [fst snd]. split; [|done].
      intros e [= <-]. rewrite dag_log_status_last. by eexists _, _, _.
  - unfold run_load.
    destruct (negb _ || negb _); cbn [fst snd].
    { split; [|done]. intros e [= <-]. rewrite dag_log_status_last. by eexists _, _, _. }
    destruct (upload_to_s3 (uploader env) _ _) as [lst [uris|e']]; cbn [fst snd]; split.
    + done.
    + intros _. unfold xcom_push. cbn [dag_log]. rewrite dag_log_status_last.
      by eexists _, _, _.
    + intros e [= <-]. rewrite dag_log_status_last. by eexists _, _, _.
    + done.
Qed.

Lemma dag_task_outcome_logged_witness :
  ∃ rows raw clean,
    dag_log (run_load (DagEnv lahore_down disk_ok (publisher None)) fresh).1
    = rows ++ [LogRow raw clean FAILED
                 (str (ValueError "No valid clean_file found: None"))].
Proof.
  apply (proj1 (dag_task_outcome_logged (DagEnv lahore_down disk_ok (publisher None))
                  fresh run_load
                  ltac:(apply elem_of_cons; right; apply elem_of_cons; right;
                        apply elem_of_cons; by left))).
  reflexivity.
Defined.

(** X23. The load task.  When no [clean_file] was published by the
    transform task, or the published path is not on disk, [run_load] raises a
    [ValueError] without calling [upload_to_s3]: the bucket and XCom stay as
    they were and the audit log gains one FAILED row.  When [run_load]
    returns, it has published a list of URIs that is not empty, and the bucket
    has gained exactly one object per URI. *)
Theorem run_load_spec env st :
  ((∀ clean, xcom_pull st "transform_weather_data" "clean_file" = Some clean →
             clean = "" ∨ exists_path (uploader env) clean = false) →
   ∃ msg,
     run_load env st
     = (DagState (dag_raw st) (dag_clean st) (dag_bucket st)
          (dag_log st ++
             [LogRow (default "" (xcom_pull st "extract_weather_data" "raw_file"))
                (default "" (xcom_pull st "transform_weather_data" "clean_file"))
                FAILED msg])
          (xcom st),
        Raised (ValueError msg)))
  ∧ ((run_load env st).2 = Returned tt →
     ∃ uris,
       xcom (run_load env st).1 !! ("load_to_s3", "s3_uris") = Some (XUris uris)
       ∧ uris ≠ []
       ∧ length (dag_bucket (run_load env st).1) = length (dag_bucket st) + length uris).
Proof.
  split.
  - intros Hmissing. unfold run_load.
    assert (negb (truthy (xcom_pull st "transform_weather_data" "clean_file"))
            || negb (exists_path (uploader env)
                       (default "" (xcom_pull st "transform_weather_data" "clean_file")))
            = true) as ->; [|by eexists].
    destruct (xcom_pull st "transform_weather_data" "clean_file") as [clean|]; [|done].
    destruct (Hmissing clean eq_refl) as [->|Hex]; [done|].
    change (default "" (Some clean)) with clean. rewrite Hex. by rewrite orb_true_r.
  - unfold run_load. destruct (negb _ || negb _); [done|].
    destruct (upload_to_s3 (uploader env) _ _) as [lst [uris|e]] eqn:Hup; [|done].
    intros _. exists uris. cbn [fst].
    destruct (upload_to_s3_returns_all _ _ _ _ _ Hup)
      as (bucket & prefix & paths & _ & _ & Hne & -> & Hobjs & _).
    unfold xcom_push, dag_log_status. cbn [xcom dag_bucket uploaded_objects].
    rewrite lookup_insert_eq. split_and!; [done|by destruct paths|].
    cbn [uploaded_objects] in Hobjs. rewrite Hobjs, length_app, !length_fmap. done.
Qed.

Lemma run_load_spec_witness :
  ∃ msg,
    run_load (DagEnv lahore_down disk_ok (publisher None)) fresh
    = (DagState ∅ ∅ [] ([] ++ [LogRow "" "" FAILED msg]) ∅, Raised (ValueError msg)).
Proof.
  apply (proj1 (run_load_spec (DagEnv lahore_down disk_ok (publisher None)) fresh)).
  intros clean Hpull. discriminate Hpull.
Defined.

End DagTasks.

(** ** One audit row per run of the Reconciler *)

Section ReconcilerAudit.
Import Transform ReconcilerExamples ReconcilerStores.

Variable env : transform_env.

Lemma transform_data_one_row raw_file st :
  ∃ row,
    transform_log (transform_data env raw_file st).1 = transform_log st ++ [row]
    ∧ log_raw_file row = raw_file
    ∧ (log_status row = SUCCESS ↔ is_raised (transform_data env raw_file st).2 = false).
Proof.
  unfold transform_data. destruct (read_snapshot st raw_file) as [data|e].
  - destruct (reconcile_cities _ _ _ _) as [files' [u|e]]; eexists; by split_and!.
  - eexists. by split_and!.
Qed.

(** X24. Every run of [transform_data] adds exactly one row to the audit
    log, whatever its outcome: the row names the snapshot and is SUCCESS
    exactly when the run returned; earlier rows are kept.  After a sequence of
    runs the log is longer by the number of runs, however many rows the runs
    appended to the datasets. *)
Theorem run_all_audit raw_files st :
  (∀ raw_file,
     ∃ row,
       transform_log (transform_data env raw_file st).1 = transform_log st ++ [row]
       ∧ log_raw_file row = raw_file
       ∧ (log_status row = SUCCESS
          ↔ is_raised (transform_data env raw_file st).2 = false))
  ∧ ∃ rows,
      transform_log (run_all env raw_files st) = transform_log st ++ rows
      ∧ log_raw_file <$> rows = raw_files.
Proof.
  split; [intros raw_file; apply transform_data_one_row|].
  revert st. induction raw_files as [|r rest IH]; intros st; cbn [run_all].
  - exists []. by rewrite app_nil_r.
  - destruct (transform_data_one_row r st) as (row & Hlog & Hraw & _).
    destruct (IH (transform_data env r st).1) as (rows & Hrows & Hnames).
    exists (row :: rows). rewrite Hrows, Hlog, <- app_assoc. cbn.
    by rewrite Hraw, Hnames.
Qed.

End ReconcilerAudit.
